(** * tools.inspect: object-introspection report generator

    A shallow embedding of [inspect] from [SRC/tools.py] together with its two
    local helpers [getdetail] and [fold], and the properties of the
    natural-language specification that concern them; then of [load], [save]
    and [show] of the same file, with properties read off their code.

    Conventions of the embedding.
    - A Python [str] is a list of Unicode code points ([N]); [len], slicing,
      [ljust] and [find] count code points, as Python does.
    - Python integers are [Z]; [//] is [Z.div] (floor division).
    - An exception that escapes a function is the [Raise] branch of [result].
    - The reflection layer ([getmembers], [getdoc], [hasattr], [type], [str],
      [repr]) is the input: a member is a record of what these calls return. *)

From Stdlib Require Import String Ascii.
From Stdlib Require Import ZArith NArith List Bool Lia Permutation Sorted.
Import ListNotations.
Open Scope Z_scope.

(** ** Python strings *)

Definition str := list N.

(** Literal: the code points of an ASCII literal. *)
Definition py (s : string) : str := map N_of_ascii (list_ascii_of_string s).

Definition NL : N := 10%N.  (* '\n' *)
Definition SP : N := 32%N.  (* ' '  *)
Definition LPAREN : N := 40%N. (* '(' *)
Definition LT : N := 60%N.  (* '<' *)
Definition USCORE : N := 95%N. (* '_' *)
Definition DASH : N := 45%N. (* '-' *)
Definition EQUALS : N := 61%N. (* '=' *)
Definition BULLET : N := 9679%N. (* U+25CF *)

Definition len (s : str) : Z := Z.of_nat (length s).

(** [str.isspace] on one code point: the Unicode white space of CPython. *)
Definition is_space (c : N) : bool :=
  (((9 <=? c) && (c <=? 13)) || ((28 <=? c) && (c <=? 32))
   || (c =? 133) || (c =? 160) || (c =? 5760)
   || ((8192 <=? c) && (c <=? 8202))
   || (c =? 8232) || (c =? 8233) || (c =? 8239) || (c =? 8287)
   || (c =? 12288))%N.

Fixpoint dropwhile {A} (p : A -> bool) (l : list A) : list A :=
  match l with
  | [] => []
  | x :: r => if p x then dropwhile p r else l
  end.

Fixpoint takewhile {A} (p : A -> bool) (l : list A) : list A :=
  match l with
  | [] => []
  | x :: r => if p x then x :: takewhile p r else []
  end.

Definition lstrip (s : str) : str := dropwhile is_space s.
Definition rstrip (s : str) : str := rev (dropwhile is_space (rev s)).
(** [s.strip()] *)
Definition strip (s : str) : str := rstrip (lstrip s).

Fixpoint str_eqb (a b : str) : bool :=
  match a, b with
  | [], [] => true
  | x :: a', y :: b' => (x =? y)%N && str_eqb a' b'
  | _, _ => false
  end.

(** [s.startswith(p)] *)
Fixpoint starts_with (p s : str) : bool :=
  match p, s with
  | [], _ => true
  | _ :: _, [] => false
  | x :: p', y :: s' => (x =? y)%N && starts_with p' s'
  end.

(** [sub in s] *)
Fixpoint contains (sub s : str) : bool :=
  starts_with sub s ||
  match s with
  | [] => false
  | _ :: r => contains sub r
  end.

(** [c in s] for a one-character string [c]. *)
Definition has_char (c : N) (s : str) : bool := contains [c] s.

(** [s.find(sub)]: offset of the first occurrence, or -1. *)
Fixpoint find (sub s : str) : Z :=
  if starts_with sub s then 0
  else match s with
       | [] => -1
       | _ :: r => let i := find sub r in if i <? 0 then -1 else i + 1
       end.

(** [s.replace(old, new)] for a non-empty [old]: occurrences are taken from
    left to right and do not overlap.  [skip] counts the characters of the
    occurrence just replaced that are still to be passed over. *)
Fixpoint replace_from (old new : str) (skip : nat) (s : str) : str :=
  match s with
  | [] => []
  | c :: r =>
      match skip with
      | S k => replace_from old new k r
      | O => if starts_with old s
             then new ++ replace_from old new (length old - 1) r
             else c :: replace_from old new 0 r
      end
  end.

Definition replace (old new s : str) : str := replace_from old new 0 s.

(** [s.split(sep)] for a non-empty [sep]; the result is never the empty
    list. *)
Fixpoint split_from (sep : str) (skip : nat) (s : str) : list str :=
  match s with
  | [] => [[]]
  | c :: r =>
      match skip with
      | S k => split_from sep k r
      | O => if starts_with sep s
             then [] :: split_from sep (length sep - 1) r
             else match split_from sep 0 r with
                  | piece :: rest => (c :: piece) :: rest
                  | [] => [[c]]
                  end
      end
  end.

Definition split (sep s : str) : list str := split_from sep 0 s.

(** [s.split()]: the maximal runs of characters that are not white space. *)
Fixpoint split_ws (s : str) : list str :=
  match s with
  | [] => []
  | c :: r =>
      if is_space c then split_ws r
      else match r with
           | [] => [[c]]
           | d :: _ =>
               if is_space d then [c] :: split_ws r
               else match split_ws r with
                    | t :: ts => (c :: t) :: ts
                    | [] => [[c]]
                    end
           end
  end.

(** [sep.join(parts)] *)
Fixpoint join (sep : str) (parts : list str) : str :=
  match parts with
  | [] => []
  | [p] => p
  | p :: rest => p ++ sep ++ join sep rest
  end.

(** Python's reading of a slice bound against a sequence of length [n]. *)
Definition clamp_index (n i : Z) : Z :=
  if i <? 0 then Z.max 0 (i + n) else Z.min i n.

(** [l[a:b]] *)
Definition slice {A} (l : list A) (a b : Z) : list A :=
  let n := Z.of_nat (length l) in
  let lo := clamp_index n a in
  let hi := clamp_index n b in
  firstn (Z.to_nat (hi - lo)) (skipn (Z.to_nat lo) l).

(** [l[:b]] *)
Definition slice_to {A} (l : list A) (b : Z) : list A := slice l 0 b.

(** [s.ljust(size)] *)
Definition ljust (size : Z) (s : str) : str :=
  s ++ repeat SP (Z.to_nat (size - len s)).

(** ** Exceptions *)

Inductive exn := IndexError | ValueError | NameError.

Inductive result (A : Type) :=
| Ok (a : A)
| Raise (e : exn).
Arguments Ok {A} a.
Arguments Raise {A} e.

Definition bind {A B} (m : result A) (k : A -> result B) : result B :=
  match m with
  | Ok a => k a
  | Raise e => Raise e
  end.

Notation "x <- m ;; k" := (bind m (fun x => k))
  (at level 61, m at next level, right associativity).

(** [l[0]] *)
Definition first_item {A} (l : list A) : result A :=
  match l with
  | [] => Raise IndexError
  | x :: _ => Ok x
  end.

(** [l[-1]] *)
Definition last_item {A} (l : list A) : result A :=
  match rev l with
  | [] => Raise IndexError
  | x :: _ => Ok x
  end.

(** ** getdetail (tools.py, lines 50-60) *)

(** [re.sub(r'^[-=]{3,}$', '', doc, flags=re.MULTILINE)].

    With [re.MULTILINE], [^] matches at the start of the text and after each
    '\n', and [$] at the end of the text and before each '\n'.  A match
    therefore starts at the beginning of a line, and covers the whole line,
    which has three or more characters, each a '-' or a '='.  The match is
    replaced by the empty string; the line break after it is not part of the
    match. *)
Definition is_mark (c : N) : bool := ((c =? DASH) || (c =? EQUALS))%N.

(** The longest run of mark characters at the head of [s], and what it is
    followed by. *)
Fixpoint mark_run (s : str) : nat * str :=
  match s with
  | [] => (O, [])
  | c :: r => if is_mark c then let (n, t) := mark_run r in (S n, t)
              else (O, s)
  end.

(** Does the pattern match at the head of [s], [s] being at a line start? *)
Definition mark_line_here (s : str) : bool :=
  let (n, t) := mark_run s in
  (3 <=? n)%nat && match t with
                   | [] => true
                   | c :: _ => (c =? NL)%N
                   end.

Inductive scan_mode := AtLineStart | Copying | Deleting.

Fixpoint sub_marks_from (mode : scan_mode) (s : str) : str :=
  match s with
  | [] => []
  | c :: r =>
      if (c =? NL)%N then c :: sub_marks_from AtLineStart r
      else
        let mode' := match mode with
                     | AtLineStart => if mark_line_here s then Deleting else Copying
                     | m => m
                     end in
        match mode' with
        | Deleting => sub_marks_from Deleting r
        | _ => c :: sub_marks_from Copying r
        end
  end.

Definition sub_marks (doc : str) : str := sub_marks_from AtLineStart doc.

(** Lines 56-57, the loop
    [for block in doc.split('\n\n'): if '(' not in block.split()[0]: break].
    After the loop [block] is the block at which it broke, or the last block
    when it never broke.  [block.split()[0]] raises [IndexError] on a block
    without a token. *)
Fixpoint for_block (blocks : list str) : result str :=
  match blocks with
  | [] => Raise NameError
  | block :: rest =>
      tok <- first_item (split_ws block) ;;
      if negb (has_char LPAREN tok) then Ok block
      else match rest with
           | [] => Ok block
           | _ :: _ => for_block rest
           end
  end.

Definition empty_docstring : str := py "<empty docstring>".
Definition ellipsis : str := py "...".
Definition INDENT : str := [NL; SP; SP].

(** Lines 52-53: [doc = getdoc(object)], here the argument [doc] ([None]
    when there is none), then [doc.strip() if doc else '<empty docstring>']. *)
Definition strip_or_placeholder (doc : option str) : str :=
  match doc with
  | None => empty_docstring
  | Some [] => empty_docstring
  | Some d => strip d
  end.

Definition getdetail (doc : option str) (detail width : Z) : result str :=
  let doc := strip_or_placeholder doc in
  if detail =? 3
  then Ok (replace [NL] INDENT (replace [NL; NL] [NL] doc) ++ [NL])
  else
    let doc := sub_marks doc in
    block <- for_block (split [NL; NL] doc) ;;
    if detail =? 2 then Ok (replace [NL] INDENT block)
    else
      let index := if negb (has_char NL block) then width
                   else Z.min width (find [NL] block) in
      Ok (slice_to block index
          ++ (if len block >? index then ellipsis else [])).

(** ** fold (tools.py, lines 62-68) *)

(** An element of one of the four lists: [[name]], [[name, doc]] or
    [[name, type, value]]. *)
Definition entry := list str.

(** The target [name,*info] of line 64. *)
Definition entry_name (e : entry) : result str :=
  match e with
  | [] => Raise ValueError
  | name :: _ => Ok name
  end.

Fixpoint mapM {A B} (f : A -> result B) (l : list A) : result (list B) :=
  match l with
  | [] => Ok []
  | x :: r => y <- f x ;; ys <- mapM f r ;; Ok (y :: ys)
  end.

(** [max(...)] of a sequence of integers. *)
Definition max_of (l : list Z) : result Z :=
  match l with
  | [] => Raise ValueError
  | x :: r => Ok (fold_left Z.max r x)
  end.

(** [len(range(start, stop, step))] for a non-zero [step]. *)
Definition range_len (start stop step : Z) : Z :=
  if 0 <? step
  then (if start <? stop then (stop - start - 1) / step + 1 else 0)
  else (if stop <? start then (start - stop - 1) / (- step) + 1 else 0).

(** [range(start, stop, step)] *)
Definition range (start stop step : Z) : result (list Z) :=
  if step =? 0 then Raise ValueError
  else Ok (map (fun k => start + Z.of_nat k * step)
               (seq 0 (Z.to_nat (range_len start stop step)))).

Definition fold (names : list entry) (width : Z) : result str :=
  names <- mapM entry_name names ;;
  longest <- max_of (map len names) ;;
  let size := longest + 2 in
  let n := width / size in
  let names := map (ljust size) names in
  starts <- range 0 (Z.of_nat (length names)) n ;;
  Ok (join [NL] (map (fun p => concat (slice names p (p + n))) starts)).

(** ** inspect (tools.py, lines 41-105) *)

(** What the reflection layer answers about one member. *)
Record member := {
  has_package : bool;       (* hasattr(member, '__package__') *)
  has_base : bool;          (* hasattr(member, '__base__') *)
  has_call : bool;          (* hasattr(member, '__call__') *)
  member_doc : option str;  (* getdoc(member) *)
  type_name : str;          (* type(member).__name__ *)
  str_of : str;             (* str(member) *)
  repr_of : str             (* repr(member) *)
}.

(** What the reflection layer answers about the inspected object. *)
Record target := {
  own_name : option str;    (* object.__name__, when it has one *)
  caller_keys : list str;   (* the caller's local names bound to the object *)
  obj_type : str;           (* type(object).__name__ *)
  obj_doc : option str;     (* getdoc(object) *)
  getmembers : list (str * member)
}.

(** Order of Python sequences: lexicographic. *)
Fixpoint lex_compare {A} (cmp : A -> A -> comparison) (a b : list A) : comparison :=
  match a, b with
  | [], [] => Eq
  | [], _ :: _ => Lt
  | _ :: _, [] => Gt
  | x :: a', y :: b' =>
      match cmp x y with
      | Eq => lex_compare cmp a' b'
      | c => c
      end
  end.

Definition str_compare : str -> str -> comparison := lex_compare N.compare.
Definition entry_compare : entry -> entry -> comparison := lex_compare str_compare.

Definition leb_of {A} (cmp : A -> A -> comparison) (a b : A) : bool :=
  match cmp a b with
  | Gt => false
  | _ => true
  end.

(** [sorted]: a stable sort. *)
Fixpoint insert_by {A} (leb : A -> A -> bool) (x : A) (l : list A) : list A :=
  match l with
  | [] => [x]
  | y :: r => if leb x y then x :: l else y :: insert_by leb x r
  end.

Definition sorted_by {A} (leb : A -> A -> bool) (l : list A) : list A :=
  fold_right (insert_by leb) [] l.

(** [sorted(getmembers(object))].  The pairs are compared by name; Python
    looks at the member objects only when two names are equal, which does not
    happen among the names of one object. *)
Definition sorted_members (l : list (str * member)) : list (str * member) :=
  sorted_by (fun a b => leb_of str_compare (fst a) (fst b)) l.

Record lists := {
  properties : list entry;
  methods : list entry;
  types : list entry;
  modules : list entry
}.

Definition no_lists : lists :=
  {| properties := []; methods := []; types := []; modules := [] |}.

(** Lines 87-91: the value shown for a property or a constant. *)
Definition property_value (width : Z) (name : str) (m : member) : result str :=
  let mtype := type_name m in
  let pwidth := width - len (name ++ mtype) - 4 in
  let pvalue := str_of m in
  c <- first_item pvalue ;;
  pvalue <- (if (c =? LT)%N
             then tok <- first_item (split_ws pvalue) ;; Ok (tok ++ py "...>")
             else Ok (strip (replace [NL] [SP] pvalue))) ;;
  pvalue <- (if len pvalue >? pwidth
             then l <- last_item pvalue ;;
                  Ok (slice_to pvalue pwidth ++ ellipsis ++ [l])
             else Ok pvalue) ;;
  Ok (if str_eqb mtype (py "str") then repr_of m else pvalue).

(** Lines 79-91: the body of the loop over the members. *)
Definition visit (detail width : Z) (acc : lists) (nm : str * member)
  : result lists :=
  let (name, m) := nm in
  c <- first_item name ;;
  if (c =? USCORE)%N then Ok acc
  else if has_package m then
    Ok {| properties := properties acc; methods := methods acc;
          types := types acc; modules := modules acc ++ [[name]] |}
  else if has_base m then
    Ok {| properties := properties acc; methods := methods acc;
          types := types acc ++ [[name]]; modules := modules acc |}
  else if has_call m then
    d <- getdetail (member_doc m) detail (width - len name - 4) ;;
    Ok {| properties := properties acc; methods := methods acc ++ [[name; d]];
          types := types acc; modules := modules acc |}
  else
    v <- property_value width name m ;;
    Ok {| properties := properties acc ++ [[name; type_name m; v]];
          methods := methods acc; types := types acc; modules := modules acc |}.

Fixpoint for_members (detail width : Z) (acc : lists) (l : list (str * member))
  : result lists :=
  match l with
  | [] => Ok acc
  | nm :: r => acc' <- visit detail width acc nm ;; for_members detail width acc' r
  end.

(** Lines 77-91: the member classifier. *)
Definition classify (obj : target) (detail width : Z) : result lists :=
  for_members detail width no_lists (sorted_members (getmembers obj)).

(** The text written so far, one item for each call of [print], threaded
    through the computation together with how it ends. *)
Definition io (A : Type) : Type := list str -> list str * result A.

Definition io_ret {A} (a : A) : io A := fun out => (out, Ok a).

Definition io_bind {A B} (m : io A) (k : A -> io B) : io B :=
  fun out =>
    match m out with
    | (out', Ok a) => k a out'
    | (out', Raise e) => (out', Raise e)
    end.

Definition lift {A} (r : result A) : io A := fun out => (out, r).

Definition print (s : str) : io unit := fun out => (out ++ [s], Ok tt).

Notation "x <~ m ;; k" := (io_bind m (fun x => k))
  (at level 61, m at next level, right associativity).

Definition is_nil {A} (l : list A) : bool :=
  match l with
  | [] => true
  | _ :: _ => false
  end.

(** ["\n● %s\n%s" % (title, body)] *)
Definition section (title body : str) : str :=
  [NL; BULLET; SP] ++ title ++ [NL] ++ body.

(** [if items: print(section(title, body))], the body being computed first. *)
Definition print_section {A} (items : list A) (title : str) (body : result str)
  : io unit :=
  if is_nil items then io_ret tt
  else b <~ lift body ;; print (section title b).

(** Line 99: [f"{name}:{type} = {value}"] for [name,type,value] in the entry. *)
Definition property_line (e : entry) : result str :=
  match e with
  | [name; type; value] => Ok (name ++ py ":" ++ type ++ py " = " ++ value)
  | _ => Raise ValueError
  end.

(** Line 101: [f"{name} : {doc}"] for [name,doc] in the entry. *)
Definition method_line (e : entry) : result str :=
  match e with
  | [name; doc] => Ok (name ++ py " : " ++ doc)
  | _ => Raise ValueError
  end.

Definition empty_name : str := py "<empty name>".

(** Lines 70-73. *)
Definition display_name (obj : target) : str :=
  match own_name obj with
  | Some n => n
  | None => match caller_keys obj with
            | key :: _ => key
            | [] => empty_name
            end
  end.

Definition header (oname otype orole : str) : str :=
  [BULLET] ++ py " NAME = " ++ oname ++ py " / TYPE = " ++ otype
  ++ [NL; BULLET] ++ py " ROLE = " ++ orole.

Definition inspect (obj : target) (detail width : Z) : io unit :=
  let oname := display_name obj in
  let otype := obj_type obj in
  role <~ lift (getdetail (obj_doc obj) 2 (width - 8)) ;;
  let orole := strip role in
  _ <~ print (header oname otype orole) ;;
  ls <~ lift (classify obj detail width) ;;
  let prompt := py "use 'inspect(" ++ oname
                ++ py ".xxx)' to get additional info for each inner" in
  let group0 := py "MODULES : " ++ prompt ++ py " module" in
  let group1 := py "TYPES : " ++ prompt ++ py " type" in
  let group2 := if str_eqb otype (py "module")
                then py "CONSTANTS" else py "PROPERTIES" in
  let group3 := if str_eqb otype (py "module")
                then py "FUNCTIONS" else py "METHODS" in
  _ <~ print_section (modules ls) group0 (fold (modules ls) width) ;;
  _ <~ print_section (types ls) group1 (fold (types ls) width) ;;
  if negb (detail =? 0) then
    props <~ lift (mapM property_line
                     (sorted_by (leb_of entry_compare) (properties ls))) ;;
    _ <~ print_section props group2 (Ok (join [NL] props)) ;;
    meths <~ lift (mapM method_line (methods ls)) ;;
    print_section meths group3 (Ok (join [NL] meths))
  else
    _ <~ print_section (properties ls) group2 (fold (properties ls) width) ;;
    print_section (methods ls) group3 (fold (methods ls) width).

(** The report of a call: what was printed, and how the call ended. *)
Definition report (obj : target) (detail width : Z) : list str * result unit :=
  inspect obj detail width [].

(** Some members to run the model on. *)
Definition a_function (doc : option str) : member :=
  {| has_package := false; has_base := false; has_call := true;
     member_doc := doc; type_name := py "function";
     str_of := py "<function f at 0x7f>"; repr_of := py "<function f at 0x7f>" |}.

Definition a_class : member :=
  {| has_package := false; has_base := true; has_call := true;
     member_doc := None; type_name := py "type";
     str_of := py "<class 'Bar'>"; repr_of := py "<class 'Bar'>" |}.

Definition a_module : member :=
  {| has_package := true; has_base := false; has_call := false;
     member_doc := None; type_name := py "module";
     str_of := py "<module 'm'>"; repr_of := py "<module 'm'>" |}.

(** A [str] object with the given content; [quoted] is its [repr]. *)
Definition a_string (content quoted : str) : member :=
  {| has_package := false; has_base := false; has_call := false;
     member_doc := Some (py "str(object='') -> str"); type_name := py "str";
     str_of := content; repr_of := quoted |}.

Definition an_int (digits : str) : member :=
  {| has_package := false; has_base := false; has_call := false;
     member_doc := Some (py "int([x]) -> integer"); type_name := py "int";
     str_of := digits; repr_of := digits |}.

Definition an_object (doc : option str) (ms : list (str * member)) : target :=
  {| own_name := None; caller_keys := [py "obj"]; obj_type := py "C";
     obj_doc := doc; getmembers := ms |}.

(** The characters before the first [c]. *)
Definition before (c : N) (s : str) : str :=
  takewhile (fun x => negb (c =? x)%N) s.

(** ** Vocabulary of the properties *)

(** *** The block that levels 0 to 2 work on *)

Definition selected_block (doc : option str) : result str :=
  for_block (split [NL; NL] (sub_marks (strip_or_placeholder doc))).

(** *** C6: truncation at levels 0 and 1 *)

(** The truncation index in the words of the specification: the smaller of
    the width and the offset of the first line break when the block has
    several lines, the width otherwise. *)
Definition truncation_index (width : Z) (block : str) : Z :=
  if existsb (N.eqb NL) block
  then Z.min width (len (before NL block))
  else width.

(** *** C8: a width that is not positive *)

(** The claim under C8, in the words of the specification: a width that is
    not positive is replaced by 1. *)
Definition clamped_width (width : Z) : Z := if width <=? 0 then 1 else width.

(** *** C5: which block is selected *)

(** The blocks of a documentation text, as the loop of line 56 sees them. *)
Definition blocks_of (doc : option str) : list str :=
  split [NL; NL] (sub_marks (strip_or_placeholder doc)).

(** The leading token of the block contains an opening parenthesis. *)
Definition signature_like (block : str) : bool :=
  match split_ws block with
  | tok :: _ => has_char LPAREN tok
  | [] => false
  end.

Definition has_token (block : str) : bool := negb (is_nil (split_ws block)).

(** The rule in the words of the specification: the first block is dropped
    when its leading token contains an opening parenthesis, and the next
    block is taken, whatever it is; otherwise the first block is taken. *)
Definition first_block_rule (blocks : list str) : option str :=
  match blocks with
  | [] => None
  | first :: rest => if signature_like first then hd_error rest else Some first
  end.

(** The rule the loop of lines 56-57 follows, told on the list of blocks: the
    first block whose leading token has no opening parenthesis is the one
    used, and the last block when there is none.  A block without any token
    counts as having no parenthesis, and the call stops there with
    [IndexError]. *)
Definition block_by_rule (blocks : list str) : result str :=
  match List.find (fun b => negb (signature_like b)) blocks with
  | Some b => if has_token b then Ok b else Raise IndexError
  | None => Ok (last blocks [])
  end.

(** Lines 58-60: what is returned for the block the loop ended on. *)
Definition format_block (detail width : Z) (block : str) : str :=
  if detail =? 2 then replace [NL] INDENT block
  else
    let index := if negb (has_char NL block) then width
                 else Z.min width (find [NL] block) in
    slice_to block index ++ (if len block >? index then ellipsis else []).

(** Lines 56-60 on a text: a block is selected, then formatted. *)
Definition summary (text : str) (detail width : Z) : result str :=
  block <- for_block (split [NL; NL] text) ;;
  Ok (format_block detail width block).

(** *** C3: level 3 *)

Definition indent_line (l : str) : str := SP :: SP :: l.

(** Every line but the first gets the two spaces. *)
Definition indent_tail (lines : list str) : list str :=
  match lines with
  | [] => []
  | l :: ls => l :: map indent_line ls
  end.

(** Level 3 in the words of the specification: the trimmed text, double line
    breaks collapsed, every line indented by two spaces, nothing added. *)
Definition level3_by_spec (text : str) : str :=
  join [NL] (map indent_line (split [NL] (replace [NL; NL] [NL] (strip text)))).

(** *** C4: the header marks *)

(** A line made of three or more '-' and '=' characters. *)
Definition is_mark_line (l : str) : bool :=
  (3 <=? length l)%nat && forallb is_mark l.

(** What the substitution leaves of a line. *)
Definition blank_mark_line (l : str) : str := if is_mark_line l then [] else l.

(** The text with every mark line emptied: the line and its line break stay. *)
Definition blank_marks (text : str) : str :=
  join [NL] (map blank_mark_line (split [NL] text)).

Definition line_end (t : str) : bool :=
  match t with
  | [] => true
  | c :: _ => (c =? NL)%N
  end.

(** Rule 2 in the words of the specification: the mark lines are taken out
    of the text, whatever the level, before anything else is done with it. *)
Definition remove_mark_lines (text : str) : str :=
  join [NL] (filter (fun l => negb (is_mark_line l)) (split [NL] text)).

Definition getdetail_marks_removed (doc : option str) (detail width : Z)
  : result str :=
  let doc := remove_mark_lines (strip_or_placeholder doc) in
  if detail =? 3
  then Ok (replace [NL] INDENT (replace [NL; NL] [NL] doc) ++ [NL])
  else
    block <- for_block (split [NL; NL] doc) ;;
    if detail =? 2 then Ok (replace [NL] INDENT block)
    else
      let index := if negb (has_char NL block) then width
                   else Z.min width (find [NL] block) in
      Ok (slice_to block index
          ++ (if len block >? index then ellipsis else [])).

(** *** C9: level 3 applied to its own result *)

(** [doc.replace('\n\n', '\n')] *)
Definition collapse (s : str) : str := replace [NL; NL] [NL] s.

(** Taking the added indentation out again: every line break followed by
    the two spaces becomes a line break. *)
Definition unindent (s : str) : str := replace INDENT [NL] s.

(** Nothing to strip at either end. *)
Definition trimmed (s : str) : Prop := lstrip s = s /\ rstrip s = s.

(** *** C1: the member classifier *)

(** The four kinds, and the kind of a member: the capabilities are tried in
    the order module, type, callable; what remains is data. *)
Inductive kind := Module | Type_ | Callable | Data.

Definition kind_of (m : member) : kind :=
  if has_package m then Module
  else if has_base m then Type_
  else if has_call m then Callable
  else Data.

Definition kind_eqb (a b : kind) : bool :=
  match a, b with
  | Module, Module | Type_, Type_ | Callable, Callable | Data, Data => true
  | _, _ => false
  end.

(** The name begins with the reserved marker, '_'. *)
Definition reserved (name : str) : bool :=
  match name with
  | c :: _ => (c =? USCORE)%N
  | [] => false
  end.

Definition visible (nm : str * member) : bool := negb (reserved (fst nm)).

(** The names held by one of the four lists. *)
Definition names_of (l : list entry) : list str := map (hd []) l.

(** The names of the visible members of kind [k], in the order of [l]. *)
Definition of_kind (k : kind) (l : list (str * member)) : list str :=
  map fst (filter (fun nm => visible nm && kind_eqb (kind_of (snd nm)) k) l).

Definition all_names (ls : lists) : list str :=
  names_of (modules ls) ++ names_of (types ls)
  ++ names_of (methods ls) ++ names_of (properties ls).

(** A turn of the loop on this member does not raise. *)
Definition visit_ok (detail width : Z) (nm : str * member) : bool :=
  match visit detail width no_lists nm with
  | Ok _ => true
  | Raise _ => false
  end.

(** *** C7: fold *)

(** The length of the longest label. *)
Definition longest (labels : list str) : Z := fold_right Z.max 0 (map len labels).

(** The rows of [fold]: windows of [n] cells. *)
Definition rows_of (cells : list str) (n : Z) : list (list str) :=
  map (fun i => firstn (Z.to_nat n) (skipn (i * Z.to_nat n) cells))
      (seq 0 (Z.to_nat ((Z.of_nat (length cells) + n - 1) / n))).

(** *** The order inside a list *)

Definition name_le (a b : str) : Prop := leb_of str_compare a b = true.

(** *** The entries and the sections *)

(** The entries have the sizes the unpackings of lines 64, 99 and 101
    expect. *)
Definition shapes_ok (ls : lists) : Prop :=
  Forall (fun e => length e = 3%nat) (properties ls) /\
  Forall (fun e => length e = 2%nat) (methods ls) /\
  Forall (fun e => length e = 1%nat) (types ls) /\
  Forall (fun e => length e = 1%nat) (modules ls).

(** How many of the four lists have something in them. *)
Definition filled (ls : lists) : nat :=
  length (filter (fun l : list entry => negb (is_nil l))
                 [modules ls; types ls; properties ls; methods ls]).

(** The list of a kind. *)
Definition list_of (k : kind) (ls : lists) : list entry :=
  match k with
  | Module => modules ls
  | Type_ => types ls
  | Callable => methods ls
  | Data => properties ls
  end.

(** The title of a section (lines 93-95). *)
Definition title_of (obj : target) (k : kind) : str :=
  let prompt := py "use 'inspect(" ++ display_name obj
                ++ py ".xxx)' to get additional info for each inner" in
  let in_module := str_eqb (obj_type obj) (py "module") in
  match k with
  | Module => py "MODULES : " ++ prompt ++ py " module"
  | Type_ => py "TYPES : " ++ prompt ++ py " type"
  | Data => if in_module then py "CONSTANTS" else py "PROPERTIES"
  | Callable => if in_module then py "FUNCTIONS" else py "METHODS"
  end.

(** What stands under the title (lines 96-105): the names in columns, or at
    a level other than 0 one line for each property and each method. *)
Definition body_of (detail width : Z) (k : kind) (l : list entry) : result str :=
  match k with
  | Module | Type_ => fold l width
  | Data =>
      if detail =? 0 then fold l width
      else lines <- mapM property_line (sorted_by (leb_of entry_compare) l) ;;
           Ok (join [NL] lines)
  | Callable =>
      if detail =? 0 then fold l width
      else lines <- mapM method_line l ;; Ok (join [NL] lines)
  end.

(** The kinds that have a section, in the order of the sections. *)
Definition shown (ls : lists) : list kind :=
  filter (fun k => negb (is_nil (list_of k ls))) [Module; Type_; Data; Callable].

(** ** load (tools.py, lines 107-122) *)

(** What [load] returns: the text, or its lines. *)
Inductive loaded :=
| Whole (text : str)
| LineList (lines : list str).

(** [line and line[0] != comment], the test of line 121. *)
Definition kept_line (comment line : str) : bool :=
  match line with
  | [] => false
  | c :: _ => negb (str_eqb [c] comment)
  end.

(** [load], from [text = file.read()] on.  [splitting] and [stripping] are
    the arguments [split] and [strip]. *)
Definition load (text : str) (splitting stripping clean : bool) (comment : str)
  : loaded :=
  let text := if stripping then strip text else text in
  if negb splitting then Whole text
  else
    let text := split [NL] text in
    let text := if stripping then map strip text else text in
    if negb clean then LineList text
    else LineList (filter (kept_line comment) text).

(** *** Lines as [load] leaves them *)

(** A line that [load] keeps and that stripping leaves alone. *)
Definition clean_line (c : N) (line : str) : Prop :=
  trimmed line /\ ~ In NL line /\ exists x r, line = x :: r /\ x <> c.

(** ** save (tools.py, lines 124-139) *)

(** The arguments [body] and [head]: a string, or a list or a tuple, given
    by the [str()] of its items. *)
Inductive content :=
| Str (s : str)
| Seq (items : list str).

(** [if head:], [if body:] *)
Definition truthy (c : content) : bool :=
  match c with
  | Str s => negb (is_nil s)
  | Seq items => negb (is_nil items)
  end.

(** The string itself, or ['\n'.join(str(line) for line in c)]. *)
Definition as_text (c : content) : str :=
  match c with
  | Str s => s
  | Seq items => join [NL] items
  end.

(** Lines 132-134. *)
Definition save_head (head : content) (comment : str) : content :=
  if truthy head
  then Str (comment ++ replace [NL] (NL :: comment) (as_text head) ++ [NL])
  else head.

(** Lines 135-137. *)
Definition save_body (body : content) : result content :=
  if truthy body
  then let text := as_text body in
       l <- last_item text ;;
       Ok (Str (if negb (l =? NL)%N then text ++ [NL] else text))
  else Ok body.

(** The file named [filename] is the text it holds, [None] when there is no
    such file, on a system whose line separator is '\n'.  Writing stores the
    code points; UTF-8, the default encoding, takes all of them but the
    surrogates.  Reading turns "\r\n" and '\r' into '\n'. *)
Definition CR : N := 13%N.

Definition surrogate (c : N) : bool := ((55296 <=? c) && (c <=? 57343))%N.

Definition encodable (s : str) : bool := forallb (fun c => negb (surrogate c)) s.

(** [open(filename, 'wa'[append])]: what the file holds once opened. *)
Definition opened (old : option str) (append : bool) : str :=
  if append then match old with
                 | Some held => held
                 | None => []
                 end
  else [].

(** [file.read()] *)
Definition read_file (held : str) : str :=
  replace [CR] [NL] (replace [CR; NL] [NL] held).

(** The exceptions of [save], by the place that raises them: [body[-1]] on
    line 137, [head + body] and [file.write] on line 139. *)
Inductive save_exn := BodyIndexError | WriteTypeError | WriteUnicodeEncodeError.

(** [save]: the file after the call, and the exception if one was raised. *)
Definition save (old : option str) (body head : content) (append : bool)
           (comment : str) : option str * option save_exn :=
  let head := save_head head comment in
  match save_body body with
  | Raise _ => (old, Some BodyIndexError)
  | Ok body =>
      let held := opened old append in
      match head, body with
      | Str h, Str b =>
          if encodable (h ++ b) then (Some (held ++ h ++ b), None)
          else (Some held, Some WriteUnicodeEncodeError)
      | _, _ => (Some held, Some WriteTypeError)
      end
  end.

(** [load] on the file as it is held: [text = file.read()], then the rest. *)
Definition load_file (held : str) (splitting stripping clean : bool)
           (comment : str) : loaded :=
  load (read_file held) splitting stripping clean comment.

(** ** show (tools.py, lines 8-21) *)

Definition STAR : N := 42%N.  (* '*' *)
Definition HASH : N := 35%N.  (* '#' *)
Definition SEMI : N := 59%N.  (* ';' *)
Definition ARROW : N := 10148%N. (* U+27A4 *)

(** Line 14: the caller's globals without the names that begin with '_'.
    [k[0]] raises on an empty name. *)
Fixpoint public {V} (globals : list (str * V)) : result (list (str * V)) :=
  match globals with
  | [] => Ok []
  | (k, v) :: rest =>
      c <- first_item k ;;
      rest' <- public rest ;;
      Ok (if negb (c =? USCORE)%N then (k, v) :: rest' else rest')
  end.

(** Lines 16-18: [head], [exp] and [tail] for one clause of the string. *)
Definition parse_clause (exp : str) : str * str * str :=
  let exp := strip exp in
  let head := slice_to exp 1 in
  let tail := slice exp (-1) (len exp) in
  let (head, exp) := if str_eqb head [STAR]
                     then ([STAR], slice exp 1 (len exp)) else ([], exp) in
  let (tail, exp) := if str_eqb tail [HASH]
                     then ([SP; ARROW; NL], slice_to exp (-1))
                     else ([SP; ARROW; SP], exp) in
  (head, exp, tail).

(** How a call of [show] can stop: on an empty global name (line 14), in
    [eval] (line 20), or in the [print] that unpacks [val], on a value that cannot be unpacked
    (line 21). *)
Inductive show_exn (E : Type) :=
| KeyIndexError
| EvalRaised (e : E)
| UnpackTypeError.
Arguments KeyIndexError {E}.
Arguments EvalRaised {E} e.
Arguments UnpackTypeError {E}.

(** Lines 16-21, for one clause.  [eval] is Python's, on the filtered
    namespace: it answers a value or raises, and may change the state [w] of
    the program as it does.  [items w val] are the [str()] of the items of
    [val], when it can be unpacked; [text w val] is [str(val)].  [out] is
    what has been written to the standard output. *)
Definition show_clause {W V E}
           (eval : W -> list (str * V) -> str -> (V + E) * W)
           (items : W -> V -> option (list str)) (text : W -> V -> str)
           (namespace : list (str * V)) (exp : str) (w : W) (out : str)
  : W * str * option (show_exn E) :=
  let '(head, exp, tail) := parse_clause exp in
  if is_nil exp then (w, out ++ [NL], None)
  else match eval w namespace exp with
       | (inr e, w) => (w, out, Some (EvalRaised e))
       | (inl val, w) =>
           let out := out ++ head ++ exp ++ tail in
           if negb (is_nil head)
           then match items w val with
                | Some its => (w, out ++ join [SP] its ++ [NL], None)
                | None => (w, out, Some UnpackTypeError)
                end
           else (w, out ++ text w val ++ [NL], None)
       end.

Fixpoint show_clauses {W V E}
         (eval : W -> list (str * V) -> str -> (V + E) * W)
         (items : W -> V -> option (list str)) (text : W -> V -> str)
         (namespace : list (str * V)) (clauses : list str) (w : W) (out : str)
  : W * str * option (show_exn E) :=
  match clauses with
  | [] => (w, out, None)
  | exp :: rest =>
      match show_clause eval items text namespace exp w out with
      | (w', out', None) => show_clauses eval items text namespace rest w' out'
      | stopped => stopped
      end
  end.

(** [show]: the state of the program after the call, what was printed, and
    the exception if one was raised. *)
Definition show {W V E}
           (eval : W -> list (str * V) -> str -> (V + E) * W)
           (items : W -> V -> option (list str)) (text : W -> V -> str)
           (globals : list (str * V)) (string : str) (w : W)
  : W * str * option (show_exn E) :=
  match public globals with
  | Raise _ => (w, [], Some KeyIndexError)
  | Ok namespace =>
      show_clauses eval items text namespace (split [SEMI] string) w []
  end.

(** *** Clauses with their flags *)

(** An expression with the prefix '*' and the suffix '#', or without. *)
Definition flagged (star : bool) (e : str) (hash : bool) : str :=
  (if star then [STAR] else []) ++ e ++ (if hash then [HASH] else []).

(** What the expression must be like where a flag is absent, for the clause
    to be read as it was meant: it has no white space at that end, and does
    not itself show the flag there. *)
Definition plain_at_ends (star : bool) (e : str) (hash : bool) : Prop :=
  (star = false -> e <> [] ->
   is_space (hd SP e) = false /\ hd SP e <> STAR) /\
  (hash = false -> e <> [] ->
   is_space (last e SP) = false /\ last e SP <> HASH).

(** A small evaluator to run the model on: the names of the namespace, and
    nothing else, have a value, here a list of strings; the state counts the
    evaluations. *)
Definition lookup_eval (w : nat) (namespace : list (str * list str)) (exp : str)
  : (list str + unit) * nat :=
  match List.find (fun kv => str_eqb (fst kv) exp) namespace with
  | Some kv => (inl (snd kv), S w)
  | None => (inr tt, S w)
  end.

(** The global may be named in an expression. *)
Definition public_name {V} (kv : str * V) : bool := negb (reserved (fst kv)).

(** * Properties *)

(** ** Runs of the model *)

Example replace_pairs :
  replace [NL; NL] [NL] (py "a" ++ [NL; NL; NL] ++ py "b") = py "a" ++ [NL; NL] ++ py "b" /\
  replace [NL; NL] [NL] (py "a" ++ [NL; NL; NL; NL] ++ py "b") = py "a" ++ [NL; NL] ++ py "b".
Proof. split; reflexivity. Qed.

Example split_blank_lines :
  split [NL; NL] (py "f(x)" ++ [NL; NL; NL; NL] ++ py "Does f.")
  = [py "f(x)"; []; py "Does f."] /\
  split [NL; NL] [] = [[]] /\ split_ws [] = [] /\
  split_ws (py "a" ++ [31%N] ++ py "b  c ") = [py "a"; py "b"; py "c"].
Proof. repeat split. Qed.

Example sub_marks_run :
  sub_marks (py "Title" ++ [NL] ++ py "=====" ++ [NL] ++ py "text" ++ [NL]
             ++ py "-=-" ++ [NL] ++ py "--" ++ [NL] ++ py "---x" ++ [NL] ++ py "----")
  = py "Title" ++ [NL; NL] ++ py "text" ++ [NL; NL] ++ py "--" ++ [NL]
    ++ py "---x" ++ [NL].
Proof. reflexivity. Qed.

Example slices :
  slice_to (py "abcdef") (-2) = py "abcd" /\ slice_to (py "abcdef") 0 = [] /\
  slice_to (py "abc") (-5) = [] /\ slice_to (py "abc") 10 = py "abc" /\
  strip ([28%N; SP] ++ py "a" ++ [SP; 133%N; 160%N]) = py "a".
Proof. repeat split. Qed.

Example getdetail_spec_example :
  getdetail (Some (py "Compute sum." ++ [NL; NL] ++ py "Args: x, y")) 1 30
  = Ok (py "Compute sum.").
Proof. reflexivity. Qed.

Example getdetail_signature_skipped :
  getdetail (Some (py "f(x, y)" ++ [NL; NL] ++ py "Adds." ++ [NL] ++ py "More")) 1 30
  = Ok (py "Adds....").
Proof. reflexivity. Qed.

Example getdetail_level2 :
  getdetail (Some (py "Title" ++ [NL] ++ py "=====" ++ [NL] ++ py "text")) 2 30
  = Ok (py "Title").
Proof. reflexivity. Qed.

Example getdetail_level3 :
  getdetail (Some (py "  a" ++ [NL; NL] ++ py "b" ++ [NL] ++ py "---  ")) 3 30
  = Ok (py "a" ++ INDENT ++ py "b" ++ INDENT ++ py "---" ++ [NL]).
Proof. reflexivity. Qed.

Example getdetail_absent : getdetail None 1 96 = Ok empty_docstring.
Proof. reflexivity. Qed.

Example getdetail_only_marks : getdetail (Some (py "-----")) 1 96 = Raise IndexError.
Proof. reflexivity. Qed.

Example fold_spec_example :
  fold [[py "alpha"]; [py "b"]; [py "gamma"]] 10
  = Ok (py "alpha  " ++ [NL] ++ py "b      " ++ [NL] ++ py "gamma  ").
Proof. reflexivity. Qed.

Example fold_two_columns :
  fold [[py "alpha"]; [py "b"]; [py "gamma"]] 15
  = Ok (py "alpha  b      " ++ [NL] ++ py "gamma  ").
Proof. reflexivity. Qed.

Example report_example :
  report (an_object (Some (py "A thing."))
            [(py "foo", a_function (Some (py "Do foo.")));
             (py "Bar", a_class);
             (py "_hidden", an_int (py "1"));
             (py "n", an_int (py "42"))]) 1 40
  = ([ [BULLET] ++ py " NAME = obj / TYPE = C" ++ [NL; BULLET] ++ py " ROLE = A thing.";
       [NL; BULLET] ++ py " TYPES : use 'inspect(obj.xxx)' to get additional info for each inner type"
         ++ [NL] ++ py "Bar  ";
       [NL; BULLET] ++ py " PROPERTIES" ++ [NL] ++ py "n:int = 42";
       [NL; BULLET] ++ py " METHODS" ++ [NL] ++ py "foo : Do foo." ],
     Ok tt).
Proof. reflexivity. Qed.

(** ** Slices, membership and [find] *)

Lemma len_nonneg (s : str) : 0 <= len s.
Proof. unfold len; lia. Qed.

Lemma len_app (a b : str) : len (a ++ b) = len a + len b.
Proof. unfold len; rewrite length_app; lia. Qed.

Lemma clamp_index_0 (n : Z) : 0 <= n -> clamp_index n 0 = 0.
Proof. intros H. unfold clamp_index. rewrite Z.ltb_irrefl. lia. Qed.

Lemma slice_to_nonneg {A} (l : list A) (b : Z) :
  0 <= b -> slice_to l b = firstn (Z.to_nat b) l.
Proof.
  intros Hb. unfold slice_to, slice.
  rewrite clamp_index_0 by lia. change (Z.to_nat 0) with O.
  rewrite skipn_O, Z.sub_0_r. unfold clamp_index.
  destruct (b <? 0) eqn:E; [apply Z.ltb_lt in E; lia|].
  destruct (Z.min_spec b (Z.of_nat (length l))) as [[H ->]|[H ->]].
  - reflexivity.
  - rewrite Nat2Z.id, firstn_all. symmetry. apply firstn_all2. lia.
Qed.

Lemma slice_to_neg {A} (l : list A) (b : Z) :
  b < 0 -> slice_to l b = firstn (length l - Z.to_nat (- b)) l.
Proof.
  intros Hb. unfold slice_to, slice.
  rewrite clamp_index_0 by lia. change (Z.to_nat 0) with O.
  rewrite skipn_O, Z.sub_0_r. unfold clamp_index.
  destruct (b <? 0) eqn:E; [|apply Z.ltb_ge in E; lia].
  f_equal. lia.
Qed.

Lemma has_char_cons (c x : N) (s : str) :
  has_char c (x :: s) = (c =? x)%N || has_char c s.
Proof. unfold has_char. simpl. rewrite andb_true_r. reflexivity. Qed.

Lemma has_char_existsb (c : N) (s : str) :
  has_char c s = existsb (N.eqb c) s.
Proof.
  induction s as [|x s IH]; [reflexivity|].
  rewrite has_char_cons, IH. reflexivity.
Qed.

Lemma before_length (c : N) (s : str) : (length (before c s) <= length s)%nat.
Proof.
  unfold before. induction s as [|x s IH]; simpl; [lia|].
  destruct (c =? x)%N; simpl; lia.
Qed.

Lemma find_char (c : N) (s : str) :
  find [c] s = if has_char c s then len (before c s) else -1.
Proof.
  induction s as [|x s IH]; [reflexivity|].
  rewrite has_char_cons. cbn [find starts_with before takewhile].
  rewrite andb_true_r. destruct (c =? x)%N eqn:E; simpl; [reflexivity|].
  fold (before c s). rewrite IH. destruct (has_char c s).
  - pose proof (len_nonneg (before c s)).
    destruct (len (before c s) <? 0) eqn:L; [apply Z.ltb_lt in L; lia|].
    unfold len. simpl length. lia.
  - reflexivity.
Qed.

Lemma has_char_before_lt (c : N) (s : str) :
  has_char c s = true -> len (before c s) < len s.
Proof.
  induction s as [|x s IH]; [discriminate|].
  rewrite has_char_cons. unfold before, len in *. simpl.
  destruct (c =? x)%N; simpl; intros H; [lia|]. specialize (IH H). lia.
Qed.

(** ** The block that levels 0 to 2 work on *)

Lemma getdetail_low (doc : option str) (detail width : Z) :
  detail <> 3 ->
  getdetail doc detail width =
  (block <- selected_block doc ;;
   if detail =? 2 then Ok (replace [NL] INDENT block)
   else
     let index := if negb (has_char NL block) then width
                  else Z.min width (find [NL] block) in
     Ok (slice_to block index ++ (if len block >? index then ellipsis else []))).
Proof.
  intros H. unfold getdetail, selected_block.
  destruct (detail =? 3) eqn:E; [apply Z.eqb_eq in E; contradiction|reflexivity].
Qed.

Lemma for_block_nonempty (blocks : list str) (b : str) :
  for_block blocks = Ok b -> b <> [].
Proof.
  induction blocks as [|x rest IH]; [discriminate|].
  cbn [for_block]. destruct (split_ws x) as [|tok toks] eqn:T.
  - discriminate.
  - cbn [first_item bind].
    assert (x <> []) by (intros ->; discriminate).
    destruct (negb (has_char LPAREN tok)); [intros [= <-]; assumption|].
    destruct rest; [intros [= <-]; assumption|exact IH].
Qed.

(** ** C6: truncation at levels 0 and 1 *)

(** C6. At levels 0 and 1 and for a positive width, the result is the
    selected block cut at [truncation_index], followed by the ellipsis exactly
    when the block is longer than what was kept, and it is never longer than
    the width plus the length of the ellipsis. *)
Theorem getdetail_truncates (doc : option str) (detail width : Z) (block : str) :
  detail = 0 \/ detail = 1 ->
  0 < width ->
  selected_block doc = Ok block ->
  let kept := firstn (Z.to_nat (truncation_index width block)) block in
  exists out,
    getdetail doc detail width = Ok out /\
    out = kept ++ (if (length kept <? length block)%nat then ellipsis else []) /\
    len out <= width + len ellipsis.
Proof.
  intros Hd Hw Hb kept.
  rewrite getdetail_low by lia. rewrite Hb. cbn [bind].
  replace (detail =? 2) with false by (symmetry; apply Z.eqb_neq; lia).
  rewrite find_char. cbv zeta.
  assert (Hidx : (if negb (has_char NL block) then width
                  else Z.min width (if has_char NL block
                                    then len (before NL block) else -1))
                 = truncation_index width block).
  { unfold truncation_index. rewrite <- has_char_existsb.
    destruct (has_char NL block); reflexivity. }
  rewrite Hidx.
  assert (Hpos : 0 <= truncation_index width block).
  { unfold truncation_index. pose proof (len_nonneg (before NL block)).
    destruct (existsb _ _); lia. }
  rewrite slice_to_nonneg by assumption. fold kept.
  assert (Hk : length kept = Nat.min (Z.to_nat (truncation_index width block))
                                      (length block))
    by (unfold kept; apply length_firstn).
  assert (Hle : truncation_index width block <= width).
  { unfold truncation_index. destruct (existsb _ _); lia. }
  assert (Hflag : (len block >? truncation_index width block)
                  = (length kept <? length block)%nat).
  { unfold len. rewrite Hk.
    destruct (Z.gtb_spec (Z.of_nat (length block)) (truncation_index width block));
      symmetry; [apply Nat.ltb_lt|apply Nat.ltb_ge]; lia. }
  rewrite Hflag. eexists. split; [reflexivity|]. split; [reflexivity|].
  rewrite len_app.
  assert (len kept <= width) by (unfold len; lia).
  destruct (length kept <? length block)%nat; [lia|].
  change (len []) with 0. pose proof (len_nonneg ellipsis). lia.
Qed.

Lemma getdetail_truncates_witness :
  exists out,
    getdetail (Some (py "f(x, y)" ++ [NL; NL] ++ py "Adds." ++ [NL] ++ py "More")) 1 30
    = Ok out /\
    out = py "Adds." ++ ellipsis /\
    len out <= 30 + len ellipsis.
Proof.
  exact (getdetail_truncates
           (Some (py "f(x, y)" ++ [NL; NL] ++ py "Adds." ++ [NL] ++ py "More"))
           1 30 (py "Adds." ++ [NL] ++ py "More")
           (or_intror eq_refl) eq_refl eq_refl).
Defined.

(** A multi-line block always gets the ellipsis: the line break itself lies
    beyond the cut. *)
Lemma truncation_multiline_ellipsis (width : Z) (block : str) :
  0 < width -> has_char NL block = true ->
  (length (firstn (Z.to_nat (truncation_index width block)) block) <? length block)%nat
  = true.
Proof.
  intros Hw H. apply Nat.ltb_lt. rewrite length_firstn.
  unfold truncation_index. rewrite <- has_char_existsb, H.
  pose proof (has_char_before_lt _ _ H). unfold len in *. lia.
Qed.

(** ** C8: a width that is not positive *)

(** C8, refuted: with width -2 the summary of "abcdef" at level 1 is not the
    one obtained with width 1; the width is used as it is. *)
Lemma width_not_clamped :
  getdetail (Some (py "abcdef")) 1 (-2) = Ok (py "abcd...") /\
  getdetail (Some (py "abcdef")) 1 (clamped_width (-2)) = Ok (py "a...") /\
  getdetail (Some (py "abcdef")) 1 (-2)
  <> getdetail (Some (py "abcdef")) 1 (clamped_width (-2)).
Proof. repeat split; try reflexivity. discriminate. Qed.

(** Levels 2 and 3 never look at the width. *)
Lemma getdetail_width_unused (doc : option str) (detail w1 w2 : Z) :
  detail = 2 \/ detail = 3 ->
  getdetail doc detail w1 = getdetail doc detail w2.
Proof.
  intros [-> | ->].
  - rewrite !getdetail_low by lia. reflexivity.
  - reflexivity.
Qed.

(** C8, amended. A width [w <= 0] is not clamped.  Levels 2 and 3 do not use
    the width, so they give what they give with width 1.  At levels 0 and 1
    the width is the end of a Python slice: with [w = 0] nothing of the
    selected block is kept, with [w < 0] the block loses its last [-w]
    characters (all of them when it has no more); the ellipsis is always
    appended. *)
Theorem getdetail_nonpositive_width (doc : option str) (detail width : Z) :
  width <= 0 ->
  (detail = 2 \/ detail = 3 ->
   getdetail doc detail width = getdetail doc detail 1) /\
  (detail = 0 \/ detail = 1 ->
   forall block, selected_block doc = Ok block ->
   getdetail doc detail width
   = Ok ((if width =? 0 then []
          else firstn (length block - Z.to_nat (- width)) block) ++ ellipsis)).
Proof.
  intros Hw. split.
  - apply getdetail_width_unused.
  - intros Hd block Hb.
    rewrite getdetail_low by lia. rewrite Hb. cbn [bind].
    replace (detail =? 2) with false by (symmetry; apply Z.eqb_neq; lia).
    rewrite find_char. cbv zeta.
    pose proof (for_block_nonempty _ _ Hb) as Hne.
    assert (Hlen : 0 < len block).
    { destruct block; [contradiction|]. unfold len. simpl length. lia. }
    assert (Hidx : (if negb (has_char NL block) then width
                    else Z.min width (if has_char NL block
                                      then len (before NL block) else -1))
                   = width).
    { pose proof (len_nonneg (before NL block)).
      destruct (has_char NL block); simpl; lia. }
    rewrite Hidx.
    replace (len block >? width) with true
      by (symmetry; apply Z.gtb_lt; lia).
    f_equal. f_equal.
    destruct (Z.eq_dec width 0) as [-> | Hn].
    + rewrite slice_to_nonneg by lia. reflexivity.
    + replace (width =? 0) with false by (symmetry; apply Z.eqb_neq; lia).
      apply slice_to_neg. lia.
Qed.

Lemma getdetail_nonpositive_width_witness :
  getdetail (Some (py "abcdef")) 1 (-2) = Ok (py "abcd" ++ ellipsis).
Proof.
  refine (proj2 (getdetail_nonpositive_width (Some (py "abcdef")) 1 (-2) _)
            (or_intror eq_refl) (py "abcdef") eq_refl).
  lia.
Defined.

(** ** C5: which block is selected *)

(** C5, refuted: a second block that looks like a signature is dropped too,
    and a signature block that stands alone is kept. *)
Lemma first_block_rule_refuted :
  let doc := Some (py "f(x)" ++ [NL; NL] ++ py "g(y)" ++ [NL; NL] ++ py "text") in
  blocks_of doc = [py "f(x)"; py "g(y)"; py "text"] /\
  first_block_rule (blocks_of doc) = Some (py "g(y)") /\
  selected_block doc = Ok (py "text") /\
  getdetail doc 2 80 = Ok (py "text") /\
  first_block_rule (blocks_of (Some (py "f(x)"))) = None /\
  selected_block (Some (py "f(x)")) = Ok (py "f(x)").
Proof. repeat split. Qed.

Lemma split_from_not_nil (sep : str) (skip : nat) (s : str) :
  split_from sep skip s <> [].
Proof.
  revert skip. induction s as [|c r IH]; intros skip; [discriminate|].
  cbn [split_from]. destruct skip; [|apply IH].
  destruct (starts_with sep (c :: r)); [discriminate|].
  destruct (split_from sep 0 r); discriminate.
Qed.

Lemma for_block_selects (blocks : list str) (b : str) :
  for_block blocks = Ok b ->
  exists pre post,
    blocks = pre ++ b :: post /\
    Forall (fun x => signature_like x = true) pre /\
    has_token b = true /\
    (signature_like b = false \/ post = []).
Proof.
  induction blocks as [|x rest IH]; [discriminate|].
  cbn [for_block]. destruct (split_ws x) as [|tok toks] eqn:T; [discriminate|].
  cbn [first_item bind].
  assert (Hs : signature_like x = has_char LPAREN tok)
    by (unfold signature_like; rewrite T; reflexivity).
  assert (Ht : has_token x = true) by (unfold has_token; rewrite T; reflexivity).
  destruct (has_char LPAREN tok) eqn:P; cbn [negb].
  - destruct rest as [|y rest'].
    + intros [= <-]. exists [], []. repeat split; auto.
    + intros H. destruct (IH H) as (pre & post & E & Hpre & Hb & Hlast).
      exists (x :: pre), post. rewrite E. repeat split; auto.
  - intros [= <-]. exists [], rest. repeat split; auto.
Qed.

(** The loop ends without an exception when every block has a token. *)
Lemma for_block_total (blocks : list str) :
  blocks <> [] -> forallb has_token blocks = true ->
  exists b, for_block blocks = Ok b.
Proof.
  induction blocks as [|x rest IH]; [contradiction|]. intros _ H.
  cbn [forallb] in H. apply andb_true_iff in H as [Hx Hr].
  cbn [for_block]. unfold has_token in Hx.
  destruct (split_ws x) as [|tok toks]; [discriminate|]. cbn [first_item bind].
  destruct (negb (has_char LPAREN tok)); [eauto|].
  destruct rest as [|y rest']; [eauto|]. apply IH; [discriminate|assumption].
Qed.

(** The loop, on any list of blocks that is not empty, follows the rule. *)
Lemma for_block_by_rule (blocks : list str) :
  blocks <> [] -> for_block blocks = block_by_rule blocks.
Proof.
  induction blocks as [|x rest IH]; [contradiction|]. intros _.
  unfold block_by_rule. cbn [for_block List.find].
  assert (S : signature_like x = match split_ws x with
                                 | tok :: _ => has_char LPAREN tok
                                 | [] => false
                                 end) by reflexivity.
  assert (K : has_token x = negb (is_nil (split_ws x))) by reflexivity.
  destruct (split_ws x) as [|tok toks] eqn:T.
  - rewrite S. cbn [negb]. rewrite K. reflexivity.
  - cbn [first_item bind]. rewrite S.
    destruct (has_char LPAREN tok); cbn [negb]; [|rewrite K; reflexivity].
    destruct rest as [|y rest']; [reflexivity|].
    rewrite IH by discriminate. unfold block_by_rule.
    destruct (List.find _ (y :: rest')); reflexivity.
Qed.

(** C5, amended. At levels 0 to 2 the text is split at blank lines and the
    block that is used is the first one whose leading token has no opening
    parenthesis: every block before it is dropped, not only the first.  When
    the leading token of every block has one, the last block is used, so a
    block that stands alone is never dropped.  When the first block without
    a parenthesis in its leading token has no token at all, the call raises
    [IndexError].  What is returned is the block that is used, formatted for
    the level. *)
Theorem selected_block_rule (doc : option str) (detail width : Z) :
  detail <> 3 ->
  selected_block doc = block_by_rule (blocks_of doc) /\
  getdetail doc detail width
  = (b <- block_by_rule (blocks_of doc) ;; Ok (format_block detail width b)).
Proof.
  intros Hd.
  assert (E : selected_block doc = block_by_rule (blocks_of doc)).
  { unfold selected_block, blocks_of. apply for_block_by_rule.
    apply split_from_not_nil. }
  split; [exact E|].
  rewrite getdetail_low by exact Hd. rewrite E.
  destruct (block_by_rule (blocks_of doc)) as [b|e]; [|reflexivity].
  cbn [bind]. unfold format_block. destruct (detail =? 2); reflexivity.
Qed.

Lemma selected_block_rule_witness :
  let doc := Some (py "f(x)" ++ [NL; NL] ++ py "g(y)") in
  selected_block doc = Ok (py "g(y)") /\
  getdetail doc 1 3 = Ok (py "g(y...").
Proof.
  exact (selected_block_rule (Some (py "f(x)" ++ [NL; NL] ++ py "g(y)")) 1 3
           ltac:(discriminate)).
Defined.

(** ** Lines: [replace], [split] and [join] *)

Lemma join_cons (sep p : str) (rest : list str) :
  rest <> [] -> join sep (p :: rest) = p ++ sep ++ join sep rest.
Proof. destruct rest; [contradiction|reflexivity]. Qed.

(** [s.replace(old, new) == new.join(s.split(old))] *)
Lemma replace_from_join (old new : str) (skip : nat) (s : str) :
  replace_from old new skip s = join new (split_from old skip s).
Proof.
  revert skip. induction s as [|c r IH]; intros skip; [reflexivity|].
  cbn [replace_from split_from]. destruct skip; [|apply IH].
  destruct (starts_with old (c :: r)).
  - rewrite join_cons by apply split_from_not_nil. rewrite IH. reflexivity.
  - rewrite IH. pose proof (split_from_not_nil old 0 r) as N.
    destruct (split_from old 0 r) as [|piece rest]; [contradiction|].
    destruct rest; reflexivity.
Qed.

Lemma replace_join (old new s : str) :
  replace old new s = join new (split old s).
Proof. apply replace_from_join. Qed.

Lemma starts_with_char (c x : N) (s : str) :
  starts_with [c] (x :: s) = (c =? x)%N.
Proof. simpl. apply andb_true_r. Qed.

Lemma split_char_cons (c x : N) (s : str) :
  split [c] (x :: s) =
  if (c =? x)%N then [] :: split [c] s
  else match split [c] s with
       | piece :: rest => (x :: piece) :: rest
       | [] => [[x]]
       end.
Proof. unfold split. cbn [split_from]. rewrite starts_with_char. reflexivity. Qed.

Lemma replace_char_cons (c x : N) (new s : str) :
  replace [c] new (x :: s) =
  if (c =? x)%N then new ++ replace [c] new s else x :: replace [c] new s.
Proof. unfold replace. cbn [replace_from]. rewrite starts_with_char. reflexivity. Qed.

Lemma split_not_nil (sep s : str) : split sep s <> [].
Proof. apply split_from_not_nil. Qed.

(** No piece of a split at a character contains that character. *)
Lemma split_char_pieces (c : N) (s : str) :
  Forall (fun piece => has_char c piece = false) (split [c] s).
Proof.
  induction s as [|x s IH]; [repeat constructor|].
  rewrite split_char_cons. destruct (c =? x)%N eqn:E.
  - constructor; [reflexivity|assumption].
  - destruct (split [c] s) as [|piece rest]; [repeat constructor|].
    + rewrite has_char_cons, E. reflexivity.
    + inversion IH; subst. constructor; [|assumption].
      rewrite has_char_cons, E. assumption.
Qed.

Lemma join_split_char (c : N) (s : str) : join [c] (split [c] s) = s.
Proof.
  induction s as [|x s IH]; [reflexivity|].
  rewrite split_char_cons. destruct (N.eqb_spec c x) as [->|N].
  - rewrite join_cons by apply split_not_nil. rewrite IH. reflexivity.
  - pose proof (split_not_nil [c] s) as Hn.
    destruct (split [c] s) as [|piece rest]; [contradiction|].
    rewrite <- IH. destruct rest; reflexivity.
Qed.

(** Splitting at a character undoes joining pieces that do not contain it. *)
Lemma split_join_char (c : N) (pieces : list str) :
  pieces <> [] ->
  Forall (fun piece => has_char c piece = false) pieces ->
  split [c] (join [c] pieces) = pieces.
Proof.
  induction pieces as [|p rest IH]; [contradiction|]. intros _ H.
  inversion H as [|? ? Hp Hrest]; subst. destruct rest as [|q rest].
  - clear IH H Hrest. cbn [join]. induction p as [|x p IHp]; [reflexivity|].
    rewrite has_char_cons in Hp. apply orb_false_iff in Hp as [E Hp].
    rewrite split_char_cons, E, (IHp Hp). reflexivity.
  - specialize (IH ltac:(discriminate) Hrest).
    rewrite join_cons by discriminate. clear H Hrest.
    induction p as [|x p IHp].
    + cbn [app]. rewrite split_char_cons, N.eqb_refl, IH. reflexivity.
    + rewrite has_char_cons in Hp. apply orb_false_iff in Hp as [E Hp].
      cbn [app]. rewrite split_char_cons, E. cbn [app] in IHp.
      rewrite (IHp Hp). reflexivity.
Qed.

(** ** C3: level 3 *)

(** C3, refuted: the first line is not indented and a line break is added at
    the end. *)
Lemma level3_by_spec_refuted :
  getdetail (Some (py "a" ++ [NL] ++ py "b")) 3 10
  = Ok (py "a" ++ [NL] ++ py "  b" ++ [NL]) /\
  level3_by_spec (py "a" ++ [NL] ++ py "b") = py "  a" ++ [NL] ++ py "  b" /\
  getdetail (Some (py "a" ++ [NL] ++ py "b")) 3 10
  <> Ok (level3_by_spec (py "a" ++ [NL] ++ py "b")).
Proof. repeat split. discriminate. Qed.

Lemma join_indent_lines (ls : list str) :
  ls <> [] ->
  join [NL] (map indent_line ls) = SP :: SP :: join [NL] (indent_tail ls).
Proof. destruct ls as [|l [|l' ls]]; [contradiction| |]; reflexivity. Qed.

Lemma replace_indent_lines (s : str) :
  replace [NL] INDENT s = join [NL] (indent_tail (split [NL] s)).
Proof.
  induction s as [|x s IH]; [reflexivity|].
  rewrite replace_char_cons, split_char_cons, IH.
  pose proof (split_not_nil [NL] s) as Hn.
  destruct (NL =? x)%N eqn:E.
  - apply N.eqb_eq in E. subst x. cbn [indent_tail].
    rewrite join_cons
      by (destruct (split [NL] s); [contradiction|discriminate]).
    rewrite join_indent_lines by assumption. reflexivity.
  - destruct (split [NL] s) as [|l ls]; [contradiction|].
    cbn [indent_tail]. destruct ls; reflexivity.
Qed.

(** C3, amended. At level 3 the result does not depend on the width: it is
    the trimmed text (the placeholder when there is none) in which each
    blank-line separator, taken from left to right, has become one line
    break, with two spaces put in front of every line but the first, and one
    line break added at the end.  Nothing is cut. *)
Theorem getdetail_level3_lines (doc : option str) (width : Z) :
  let text := strip_or_placeholder doc in
  let collapsed := join [NL] (split [NL; NL] text) in
  getdetail doc 3 width
  = Ok (join [NL] (indent_tail (split [NL] collapsed)) ++ [NL]).
Proof.
  cbv zeta. unfold getdetail. cbn [Z.eqb Pos.eqb].
  rewrite replace_indent_lines, replace_join. reflexivity.
Qed.

(** ** C4: the header marks *)

Lemma is_mark_not_NL (c : N) : is_mark c = true -> (NL =? c)%N = false.
Proof.
  unfold is_mark. intros H. apply N.eqb_neq. intros <-. discriminate.
Qed.

Lemma mark_run_first_line (k : nat) (s : str) :
  (let (n, t) := mark_run s in (k <=? n)%nat && line_end t)
  = (k <=? length (before NL s))%nat && forallb is_mark (before NL s).
Proof.
  revert k. induction s as [|c r IH]; intros k.
  - cbn. rewrite !andb_true_r. reflexivity.
  - cbn [mark_run before takewhile]. destruct (is_mark c) eqn:M.
    + rewrite (is_mark_not_NL c M). cbn [negb]. fold (before NL r).
      cbn [length forallb]. rewrite M. cbn [andb].
      specialize (IH (Nat.pred k)). destruct (mark_run r) as [n t].
      destruct k as [|k]; [|exact IH].
      cbn [Nat.leb]. cbn [Nat.pred Nat.leb] in IH. exact IH.
    + cbn [line_end]. destruct (NL =? c)%N eqn:E.
      * apply N.eqb_eq in E. subst c. reflexivity.
      * cbn [negb length forallb]. rewrite M. rewrite N.eqb_sym, E.
        rewrite !andb_false_r. reflexivity.
Qed.

Lemma mark_line_here_first_line (s : str) :
  mark_line_here s = is_mark_line (before NL s).
Proof.
  unfold mark_line_here, is_mark_line. rewrite <- mark_run_first_line.
  destruct (mark_run s) as [n t]. reflexivity.
Qed.

Lemma before_cons (c x : N) (r : str) :
  before c (x :: r) = if (c =? x)%N then [] else x :: before c r.
Proof. unfold before. simpl. destruct (c =? x)%N; reflexivity. Qed.

Lemma split_head_before (c : N) (r : str) :
  hd [] (split [c] r) = before c r.
Proof.
  induction r as [|y r IH]; [reflexivity|].
  rewrite split_char_cons, before_cons. destruct (c =? y)%N; [reflexivity|].
  pose proof (split_not_nil [c] r) as Hn.
  destruct (split [c] r); [contradiction|]. cbn [hd] in *. congruence.
Qed.

(** The three modes of the scan, in terms of the lines of the text. *)
Lemma sub_marks_from_lines (s : str) :
  match split [NL] s with
  | [] => False
  | l :: ls =>
      sub_marks_from Copying s = join [NL] (l :: map blank_mark_line ls) /\
      sub_marks_from Deleting s = join [NL] ([] :: map blank_mark_line ls) /\
      sub_marks_from AtLineStart s = join [NL] (map blank_mark_line (l :: ls))
  end.
Proof.
  induction s as [|x r IH]; [repeat split|].
  rewrite split_char_cons. cbn [sub_marks_from].
  pose proof (mark_line_here_first_line (x :: r)) as Hm.
  destruct (split [NL] r) as [|l ls] eqn:Hs; [contradiction|].
  destruct IH as (IHc & IHd & IHs).
  destruct (N.eqb_spec x NL) as [->|Hx].
  - cbn [N.eqb Pos.eqb NL]. change (10 =? 10)%N with true. cbv iota.
    change (10%N) with NL. rewrite IHs.
    change (blank_mark_line []) with (@nil N).
    repeat split; rewrite join_cons by discriminate; reflexivity.
  - assert (E : (NL =? x)%N = false) by (apply N.eqb_neq; congruence).
    rewrite E. pose proof (split_head_before NL r) as Hb.
    rewrite Hs in Hb. cbn [hd] in Hb. rewrite before_cons, E, <- Hb in Hm.
    rewrite IHc, IHd. repeat split.
    + destruct ls; reflexivity.
    + rewrite Hm. cbn [map].
      change (blank_mark_line (x :: l))
        with (if is_mark_line (x :: l) then [] else x :: l).
      destruct (is_mark_line (x :: l)); [reflexivity|].
      destruct ls; reflexivity.
Qed.

Lemma sub_marks_lines (s : str) :
  sub_marks s = join [NL] (map blank_mark_line (split [NL] s)).
Proof.
  unfold sub_marks. pose proof (sub_marks_from_lines s) as H.
  destruct (split [NL] s); [contradiction|]. apply H.
Qed.

Lemma blank_mark_line_no_NL (l : str) :
  has_char NL l = false -> has_char NL (blank_mark_line l) = false.
Proof. unfold blank_mark_line. destruct (is_mark_line l); auto. Qed.

Lemma split_sub_marks (s : str) :
  split [NL] (sub_marks s) = map blank_mark_line (split [NL] s).
Proof.
  rewrite sub_marks_lines. apply split_join_char.
  - pose proof (split_not_nil [NL] s). destruct (split [NL] s);
      [contradiction|discriminate].
  - pose proof (split_char_pieces NL s) as H. induction H; constructor; auto.
    apply blank_mark_line_no_NL. assumption.
Qed.

(** C4, refuted: at level 3 a mark line is still there, and at level 2 the
    emptied line splits the text into two blocks. *)
Lemma marks_removed_refuted :
  let rule := py "a" ++ [NL] ++ py "---" ++ [NL] ++ py "b" in
  let title := py "Title" ++ [NL] ++ py "=====" ++ [NL] ++ py "text" in
  getdetail (Some rule) 3 20 = Ok (py "a" ++ INDENT ++ py "---" ++ INDENT ++ py "b" ++ [NL]) /\
  getdetail_marks_removed (Some rule) 3 20 = Ok (py "a" ++ INDENT ++ py "b" ++ [NL]) /\
  getdetail (Some title) 2 20 = Ok (py "Title") /\
  getdetail_marks_removed (Some title) 2 20 = Ok (py "Title" ++ INDENT ++ py "text") /\
  getdetail (Some rule) 3 20 <> getdetail_marks_removed (Some rule) 3 20 /\
  getdetail (Some title) 2 20 <> getdetail_marks_removed (Some title) 2 20.
Proof. repeat split; discriminate. Qed.

(** C4, amended. At levels 0 to 2 what is returned is what the selection
    and the formatting of a block give on the text in which every line made
    only of three or more '-' and '=' characters has been emptied: the
    characters of such a line go, the line and its line break stay, so the
    text keeps all its lines, the other lines unchanged, and the blocks are
    those of that text.  At level 3 the text is formatted with these lines
    left as they are. *)
Theorem marks_blanked_not_removed (doc : option str) (detail width : Z) :
  let text := strip_or_placeholder doc in
  getdetail doc detail width
  = (if detail =? 3
     then Ok (replace [NL] INDENT (replace [NL; NL] [NL] text) ++ [NL])
     else summary (blank_marks text) detail width) /\
  split [NL] (sub_marks text) = map blank_mark_line (split [NL] text) /\
  split [NL] (blank_marks text) = map blank_mark_line (split [NL] text) /\
  length (split [NL] (blank_marks text)) = length (split [NL] text) /\
  blocks_of doc = split [NL; NL] (blank_marks text).
Proof.
  cbv zeta.
  assert (E : sub_marks (strip_or_placeholder doc)
              = blank_marks (strip_or_placeholder doc))
    by apply sub_marks_lines.
  repeat split.
  - unfold getdetail, summary. rewrite E.
    destruct (detail =? 3); [reflexivity|].
    destruct (for_block _) as [b|e]; [|reflexivity].
    cbn [bind]. unfold format_block. destruct (detail =? 2); reflexivity.
  - apply split_sub_marks.
  - rewrite <- E. apply split_sub_marks.
  - rewrite <- E, split_sub_marks. apply length_map.
  - unfold blocks_of. rewrite E. reflexivity.
Qed.

(** ** C9: level 3 applied to its own result *)

Lemma collapse_pair (r : str) : collapse (NL :: NL :: r) = NL :: collapse r.
Proof. reflexivity. Qed.

Lemma collapse_other (c : N) (r : str) :
  starts_with [NL; NL] (c :: r) = false -> collapse (c :: r) = c :: collapse r.
Proof. intros H. unfold collapse, replace. cbn [replace_from]. rewrite H. reflexivity. Qed.

(** Induction that follows [collapse]: a pair of line breaks, or one other
    character, at a time. *)
Lemma collapse_ind (P : str -> Prop) :
  P [] ->
  (forall r, P r -> P (NL :: NL :: r)) ->
  (forall c r, starts_with [NL; NL] (c :: r) = false -> P r -> P (c :: r)) ->
  forall s, P s.
Proof.
  intros H0 H2 H1 s.
  assert (G : forall n s, (length s <= n)%nat -> P s).
  { clear s. induction n as [|n IH]; intros s Hl.
    - destruct s; [exact H0|simpl in Hl; lia].
    - destruct s as [|c r]; [exact H0|].
      destruct (starts_with [NL; NL] (c :: r)) eqn:E.
      + destruct r as [|d r]; [simpl in E; rewrite andb_false_r in E; discriminate|].
        cbn [starts_with] in E. rewrite andb_true_r in E.
        apply andb_true_iff in E as [E1 E2].
        apply N.eqb_eq in E1, E2. subst c d.
        apply H2, IH. simpl in Hl. lia.
      + apply H1; [assumption|]. apply IH. simpl in Hl. lia. }
  apply (G (length s)). lia.
Qed.

Lemma collapse_hd (s : str) : hd_error (collapse s) = hd_error s.
Proof.
  destruct s as [|c r]; [reflexivity|].
  destruct (starts_with [NL; NL] (c :: r)) eqn:E.
  - destruct r as [|d r]; [simpl in E; rewrite andb_false_r in E; discriminate|].
    cbn [starts_with] in E. rewrite andb_true_r in E.
    apply andb_true_iff in E as [E1 E2]. apply N.eqb_eq in E1, E2. subst c d.
    reflexivity.
  - rewrite collapse_other by assumption. reflexivity.
Qed.

Lemma collapse_nil_iff (s : str) : collapse s = [] <-> s = [].
Proof.
  split; [|intros ->; reflexivity]. intros H.
  pose proof (collapse_hd s) as E. rewrite H in E.
  destruct s; [reflexivity|discriminate].
Qed.

Lemma collapse_last (s : str) (d : N) : last (collapse s) d = last s d.
Proof.
  induction s as [|r IH|c r E IH] using collapse_ind.
  - reflexivity.
  - rewrite collapse_pair. destruct r as [|x r]; [reflexivity|].
    assert (N1 : collapse (x :: r) <> []) by (rewrite collapse_nil_iff; discriminate).
    change (last (NL :: NL :: x :: r) d) with (last (x :: r) d). rewrite <- IH.
    destruct (collapse (x :: r)); [contradiction|reflexivity].
  - rewrite collapse_other by assumption. destruct r as [|x r]; [reflexivity|].
    assert (N1 : collapse (x :: r) <> []) by (rewrite collapse_nil_iff; discriminate).
    change (last (c :: x :: r) d) with (last (x :: r) d). rewrite <- IH.
    destruct (collapse (x :: r)); [contradiction|reflexivity].
Qed.

Lemma replace_absent (old new s : str) :
  contains old s = false -> replace old new s = s.
Proof.
  unfold replace. induction s as [|c r IH]; [reflexivity|].
  cbn [contains replace_from]. intros H. apply orb_false_iff in H as [H1 H2].
  rewrite H1, IH by assumption. reflexivity.
Qed.

Lemma contains_cons (sub : str) (c : N) (s : str) :
  contains sub (c :: s) = starts_with sub (c :: s) || contains sub s.
Proof. reflexivity. Qed.

(** Without three line breaks in a row in the text, no two in a row are left
    after [collapse]. *)
Lemma collapse_no_pair (s : str) :
  contains [NL; NL; NL] s = false -> contains [NL; NL] (collapse s) = false.
Proof.
  induction s as [|r IH|c r E IH] using collapse_ind; intros H.
  - reflexivity.
  - rewrite collapse_pair. rewrite !contains_cons in H.
    apply orb_false_iff in H as [H1 H]. apply orb_false_iff in H as [_ H].
    rewrite contains_cons, (IH H), orb_false_r.
    pose proof (collapse_hd r) as Hh.
    destruct r as [|x r].
    + reflexivity.
    + cbn [starts_with] in H1. rewrite !N.eqb_refl in H1. cbn [andb] in H1.
      rewrite andb_true_r in H1.
      destruct (collapse (x :: r)) as [|y t]; [reflexivity|].
      cbn [hd_error] in Hh. injection Hh as ->.
      cbn [starts_with]. rewrite N.eqb_refl, H1. reflexivity.
  - rewrite collapse_other by assumption. rewrite contains_cons in H.
    apply orb_false_iff in H as [_ H].
    rewrite contains_cons, (IH H), orb_false_r.
    pose proof (collapse_hd r) as Hh.
    destruct r as [|x r]; [cbn; apply andb_false_r|].
    destruct (collapse (x :: r)) as [|y t]; [cbn; apply andb_false_r|].
    cbn [hd_error] in Hh. injection Hh as ->. exact E.
Qed.

Lemma unindent_indent (s : str) :
  unindent (replace [NL] INDENT s ++ [NL]) = s ++ [NL].
Proof.
  induction s as [|x s IH]; [reflexivity|].
  rewrite replace_char_cons. destruct (N.eqb_spec NL x) as [<-|Hx].
  - change ((INDENT ++ replace [NL] INDENT s) ++ [NL])
      with (NL :: SP :: SP :: (replace [NL] INDENT s ++ [NL])).
    change (unindent (NL :: SP :: SP :: (replace [NL] INDENT s ++ [NL])))
      with (NL :: unindent (replace [NL] INDENT s ++ [NL])).
    rewrite IH. reflexivity.
  - cbn [app]. unfold unindent, replace in *. cbn [replace_from].
    replace (starts_with INDENT (x :: replace_from [NL] INDENT 0 s ++ [NL]))
      with false.
    + rewrite IH. reflexivity.
    + symmetry. cbn [starts_with INDENT].
      replace (NL =? x)%N with false by (symmetry; apply N.eqb_neq; assumption).
      reflexivity.
Qed.

(** *** Trimmed texts *)

Lemma dropwhile_hd {A} (p : A -> bool) (l : list A) (a : A) (t : list A) :
  dropwhile p l = a :: t -> p a = false.
Proof.
  induction l as [|x l IH]; [discriminate|]. cbn [dropwhile].
  destruct (p x) eqn:E; [exact IH|]. intros [= <- <-]. exact E.
Qed.

Lemma dropwhile_keep {A} (p : A -> bool) (a : A) (t : list A) :
  p a = false -> dropwhile p (a :: t) = a :: t.
Proof. intros H. cbn [dropwhile]. rewrite H. reflexivity. Qed.

Lemma dropwhile_idem {A} (p : A -> bool) (l : list A) :
  dropwhile p (dropwhile p l) = dropwhile p l.
Proof.
  destruct (dropwhile p l) as [|a t] eqn:E; [reflexivity|].
  apply dropwhile_keep. exact (dropwhile_hd _ _ _ _ E).
Qed.

Lemma takewhile_dropwhile {A} (p : A -> bool) (l : list A) :
  takewhile p l ++ dropwhile p l = l.
Proof.
  induction l as [|x l IH]; [reflexivity|]. cbn [takewhile dropwhile].
  destruct (p x); [cbn [app]; rewrite IH|]; reflexivity.
Qed.

Lemma rstrip_prefix (s : str) : exists w, s = rstrip s ++ w.
Proof.
  exists (rev (takewhile is_space (rev s))). unfold rstrip.
  rewrite <- rev_app_distr, takewhile_dropwhile, rev_involutive. reflexivity.
Qed.

Lemma strip_trimmed (s : str) : trimmed (strip s).
Proof.
  unfold trimmed, strip. split.
  - destruct (rstrip_prefix (lstrip s)) as [w Hw].
    destruct (rstrip (lstrip s)) as [|a u] eqn:E; [reflexivity|].
    unfold lstrip in *. apply dropwhile_keep.
    exact (dropwhile_hd _ _ _ _ Hw).
  - unfold rstrip. rewrite rev_involutive, dropwhile_idem. reflexivity.
Qed.

Lemma strip_or_placeholder_trimmed (doc : option str) :
  trimmed (strip_or_placeholder doc).
Proof.
  destruct doc as [[|c r]|]; try (split; reflexivity). apply strip_trimmed.
Qed.

Lemma rev_last {A} (l : list A) (d : A) :
  l <> [] -> rev l = last l d :: rev (removelast l).
Proof.
  intros H. rewrite (app_removelast_last d H) at 1.
  rewrite rev_unit. reflexivity.
Qed.

Lemma trimmed_ends (s : str) (d : N) :
  trimmed s -> s <> [] ->
  is_space (hd d s) = false /\ is_space (last s d) = false.
Proof.
  intros [Hl Hr] Hn. split.
  - destruct s as [|a t]; [contradiction|]. exact (dropwhile_hd _ _ _ _ Hl).
  - unfold rstrip in Hr. apply (f_equal (@rev N)) in Hr.
    rewrite rev_involutive in Hr. rewrite (rev_last s d Hn) in Hr.
    exact (dropwhile_hd _ _ _ _ Hr).
Qed.

Lemma strip_collapse_NL (s : str) :
  trimmed s -> strip (collapse s ++ [NL]) = collapse s.
Proof.
  intros T. destruct s as [|c r] eqn:Es; [reflexivity|]. rewrite <- Es in *.
  assert (Hn : s <> []) by (rewrite Es; discriminate).
  destruct (trimmed_ends s NL T Hn) as [Hh Hl].
  assert (Hc : collapse s <> []) by (rewrite collapse_nil_iff; assumption).
  pose proof (collapse_hd s) as Hhd. rewrite <- (collapse_last s NL) in Hl.
  unfold strip.
  assert (L : lstrip (collapse s ++ [NL]) = collapse s ++ [NL]).
  { destruct (collapse s) as [|a t]; [contradiction|].
    rewrite Es in Hhd, Hh. cbn [hd_error] in Hhd. injection Hhd as ->.
    apply dropwhile_keep. exact Hh. }
  rewrite L. unfold rstrip. rewrite rev_unit.
  change (dropwhile is_space (NL :: rev (collapse s)))
    with (dropwhile is_space (rev (collapse s))).
  rewrite (rev_last (collapse s) NL Hc), (dropwhile_keep _ _ _ Hl).
  rewrite <- (rev_last (collapse s) NL Hc). apply rev_involutive.
Qed.

Lemma strip_or_placeholder_some (s : str) :
  s <> [] -> strip_or_placeholder (Some s) = strip s.
Proof. destruct s; [contradiction|reflexivity]. Qed.

(** C9, refuted: three line breaks in a row become two, and two become one
    when level 3 is applied again. *)
Lemma level3_not_idempotent :
  let doc := py "a" ++ [NL; NL; NL] ++ py "b" in
  getdetail (Some doc) 3 80 = Ok (py "a" ++ INDENT ++ INDENT ++ py "b" ++ [NL]) /\
  unindent (py "a" ++ INDENT ++ INDENT ++ py "b" ++ [NL])
  = py "a" ++ [NL; NL] ++ py "b" ++ [NL] /\
  getdetail (Some (py "a" ++ [NL; NL] ++ py "b" ++ [NL])) 3 80
  = Ok (py "a" ++ INDENT ++ py "b" ++ [NL]) /\
  getdetail (Some (unindent (py "a" ++ INDENT ++ INDENT ++ py "b" ++ [NL]))) 3 80
  <> getdetail (Some doc) 3 80.
Proof. repeat split. discriminate. Qed.

(** C9, amended. When the trimmed text has no three line breaks in a row,
    level 3 applied to its own result, the added indentation taken out,
    gives that result again. *)
Theorem level3_reapplied (doc : option str) (w1 w2 : Z) (out : str) :
  contains [NL; NL; NL] (strip_or_placeholder doc) = false ->
  getdetail doc 3 w1 = Ok out ->
  getdetail (Some (unindent out)) 3 w2 = Ok out.
Proof.
  intros H3 H. unfold getdetail in H. cbn [Z.eqb Pos.eqb] in H.
  injection H as <-. fold (collapse (strip_or_placeholder doc)).
  rewrite unindent_indent. set (text := strip_or_placeholder doc) in *.
  unfold getdetail. cbn [Z.eqb Pos.eqb].
  rewrite strip_or_placeholder_some by (destruct (collapse text); discriminate).
  rewrite strip_collapse_NL by apply strip_or_placeholder_trimmed.
  rewrite (replace_absent [NL; NL] [NL] (collapse text))
    by (apply collapse_no_pair; assumption).
  reflexivity.
Qed.

Lemma level3_reapplied_witness :
  getdetail
    (Some (unindent (py "a" ++ INDENT ++ py "b" ++ INDENT ++ py "c" ++ [NL]))) 3 40
  = Ok (py "a" ++ INDENT ++ py "b" ++ INDENT ++ py "c" ++ [NL]).
Proof.
  exact (level3_reapplied
           (Some (py " a" ++ [NL; NL] ++ py "b" ++ [NL] ++ py "c "))
           80 40 _ eq_refl eq_refl).
Defined.

(** ** C1: the member classifier *)

Lemma names_of_app (a b : list entry) :
  names_of (a ++ b) = names_of a ++ names_of b.
Proof. apply map_app. Qed.

(** One turn of the loop adds the name to the list of its kind, and to no
    other; a reserved name is added to none. *)
Lemma visit_names (detail width : Z) (acc acc' : lists) (nm : str * member) :
  visit detail width acc nm = Ok acc' ->
  names_of (modules acc') = names_of (modules acc) ++ of_kind Module [nm] /\
  names_of (types acc') = names_of (types acc) ++ of_kind Type_ [nm] /\
  names_of (methods acc') = names_of (methods acc) ++ of_kind Callable [nm] /\
  names_of (properties acc') = names_of (properties acc) ++ of_kind Data [nm].
Proof.
  destruct nm as [name m]. unfold visit, of_kind, visible, kind_of.
  cbn [filter fst snd]. destruct name as [|c name]; [discriminate|].
  cbn [first_item bind reserved]. destruct (c =? USCORE)%N.
  - intros [= <-]. cbn. rewrite !app_nil_r. auto.
  - cbn [negb andb]. destruct (has_package m).
    + intros [= <-]. cbn. rewrite !names_of_app, !app_nil_r. auto.
    + destruct (has_base m).
      * intros [= <-]. cbn. rewrite !names_of_app, !app_nil_r. auto.
      * destruct (has_call m).
        -- destruct (getdetail _ _ _); [|discriminate]. cbn [bind].
           intros [= <-]. cbn. rewrite !names_of_app, !app_nil_r. auto.
        -- destruct (property_value _ _ _); [|discriminate]. cbn [bind].
           intros [= <-]. cbn. rewrite !names_of_app, !app_nil_r. auto.
Qed.

Lemma of_kind_cons (k : kind) (nm : str * member) (l : list (str * member)) :
  of_kind k (nm :: l) = of_kind k [nm] ++ of_kind k l.
Proof.
  unfold of_kind. cbn [filter].
  destruct (visible nm && kind_eqb (kind_of (snd nm)) k); reflexivity.
Qed.

Lemma for_members_names (detail width : Z) (l : list (str * member)) :
  forall acc acc',
  for_members detail width acc l = Ok acc' ->
  names_of (modules acc') = names_of (modules acc) ++ of_kind Module l /\
  names_of (types acc') = names_of (types acc) ++ of_kind Type_ l /\
  names_of (methods acc') = names_of (methods acc) ++ of_kind Callable l /\
  names_of (properties acc') = names_of (properties acc) ++ of_kind Data l.
Proof.
  induction l as [|nm l IH]; intros acc acc'.
  - intros [= <-]. unfold of_kind. cbn. rewrite !app_nil_r. auto.
  - cbn [for_members]. destruct (visit detail width acc nm) as [mid|] eqn:V;
      [|discriminate].
    cbn [bind]. intros H. apply IH in H as (H1 & H2 & H3 & H4).
    apply visit_names in V as (V1 & V2 & V3 & V4).
    rewrite H1, H2, H3, H4, V1, V2, V3, V4.
    rewrite !(of_kind_cons _ nm l), !app_assoc. auto.
Qed.

(** The four kinds split the visible members. *)
Lemma of_kind_partition (l : list (str * member)) :
  Permutation (of_kind Module l ++ of_kind Type_ l
               ++ of_kind Callable l ++ of_kind Data l)
              (map fst (filter visible l)).
Proof.
  induction l as [|nm l IH]; [constructor|].
  rewrite !(of_kind_cons _ nm l). cbn [filter]. unfold of_kind at 1 3 5 7.
  cbn [filter]. destruct (visible nm); cbn [andb]; [|exact IH].
  destruct (kind_of (snd nm)); cbn [kind_eqb map app].
  - constructor. exact IH.
  - symmetry. apply Permutation_cons_app. symmetry. exact IH.
  - rewrite app_assoc. symmetry. apply Permutation_cons_app.
    rewrite <- app_assoc. symmetry. exact IH.
  - rewrite 2 app_assoc. symmetry. apply Permutation_cons_app.
    rewrite <- !app_assoc. symmetry. exact IH.
Qed.

Lemma insert_by_perm {A} (leb : A -> A -> bool) (x : A) (l : list A) :
  Permutation (insert_by leb x l) (x :: l).
Proof.
  induction l as [|y l IH]; [reflexivity|]. cbn [insert_by].
  destruct (leb x y); [reflexivity|]. rewrite IH. apply perm_swap.
Qed.

Lemma sorted_by_perm {A} (leb : A -> A -> bool) (l : list A) :
  Permutation (sorted_by leb l) l.
Proof.
  induction l as [|x l IH]; [constructor|]. cbn [sorted_by fold_right].
  rewrite insert_by_perm. constructor. exact IH.
Qed.

Lemma filter_perm {A} (p : A -> bool) (l l' : list A) :
  Permutation l l' -> Permutation (filter p l) (filter p l').
Proof.
  induction 1 as [|x l l' _ IH|x y l|l l' l'' _ IH1 _ IH2]; cbn [filter].
  - constructor.
  - destruct (p x); [constructor|]; exact IH.
  - destruct (p x), (p y); try reflexivity. apply perm_swap.
  - etransitivity; eassumption.
Qed.

Lemma filter_visible_in (l : list (str * member)) (name : str) :
  In name (map fst (filter visible l)) -> reserved name = false.
Proof.
  intros H. apply in_map_iff in H as (nm & <- & H).
  apply filter_In in H as [_ H]. unfold visible in H.
  destruct (reserved (fst nm)); [discriminate|reflexivity].
Qed.

(** Dropping members keeps their names distinct. *)
Lemma filter_names_NoDup (keep : str * member -> bool) (ms : list (str * member)) :
  NoDup (map fst ms) -> NoDup (map fst (filter keep ms)).
Proof.
  intros N. induction ms as [|nm ms IH]; [exact N|].
  cbn [map filter] in *. apply NoDup_cons_iff in N as [Hx Hl].
  destruct (keep nm); [|exact (IH Hl)].
  cbn [map]. apply NoDup_cons; [|exact (IH Hl)].
  intros Hin. apply Hx. apply in_map_iff in Hin as (y & E & Hy).
  apply in_map_iff. exists y. apply filter_In in Hy. tauto.
Qed.

(** The four lists, read off the members in sorted order. *)
Lemma classify_lists (obj : target) (detail width : Z) (ls : lists) :
  classify obj detail width = Ok ls ->
  let ms := sorted_members (getmembers obj) in
  names_of (modules ls) = of_kind Module ms /\
  names_of (types ls) = of_kind Type_ ms /\
  names_of (methods ls) = of_kind Callable ms /\
  names_of (properties ls) = of_kind Data ms.
Proof.
  intros H ms. unfold classify in H. fold ms in H.
  apply for_members_names in H as (H1 & H2 & H3 & H4). auto.
Qed.

(** The loop of line 56 raises nothing but [IndexError] on blocks that are
    there. *)
Lemma for_block_raise_kind (blocks : list str) (e : exn) :
  blocks <> [] -> for_block blocks = Raise e -> e = IndexError.
Proof.
  induction blocks as [|x rest IH]; [contradiction|]. intros _.
  cbn [for_block]. destruct (split_ws x) as [|tok toks]; [intros [= <-]; reflexivity|].
  cbn [first_item bind]. destruct (negb (has_char LPAREN tok)); [discriminate|].
  destruct rest as [|y rest']; [discriminate|]. apply IH. discriminate.
Qed.

Lemma getdetail_raise_kind (doc : option str) (detail width : Z) (e : exn) :
  getdetail doc detail width = Raise e -> e = IndexError.
Proof.
  unfold getdetail. destruct (detail =? 3); [discriminate|].
  destruct (for_block _) as [b|e'] eqn:F.
  - cbn [bind]. destruct (detail =? 2); discriminate.
  - cbn [bind]. intros [= <-].
    exact (for_block_raise_kind _ _ (split_from_not_nil _ _ _) F).
Qed.

Lemma property_value_raise_kind (width : Z) (name : str) (m : member) (e : exn) :
  property_value width name m = Raise e -> e = IndexError.
Proof.
  unfold property_value. destruct (str_of m) as [|c r] eqn:S;
    [intros [= <-]; reflexivity|].
  cbn [first_item bind].
  assert (L : forall p : str, last_item p = Raise e -> e = IndexError).
  { intros p. unfold last_item. destruct (rev p); [intros [= <-]; reflexivity|discriminate]. }
  destruct (c =? LT)%N.
  - destruct (first_item (split_ws (c :: r))) as [tok|e'] eqn:F.
    + cbn [bind]. destruct (_ >? _); [|discriminate].
      destruct (last_item _) eqn:Q; [discriminate|].
      cbn [bind]. intros [= <-]. exact (L _ Q).
    + cbn [bind]. intros [= <-]. unfold first_item in F.
      destruct (split_ws (c :: r)); [injection F as <-; reflexivity|discriminate].
  - cbn [bind]. destruct (_ >? _); [|discriminate].
    destruct (last_item _) eqn:Q; [discriminate|].
    cbn [bind]. intros [= <-]. exact (L _ Q).
Qed.

Lemma visit_raise_kind (detail width : Z) (acc : lists) (nm : str * member)
      (e : exn) :
  visit detail width acc nm = Raise e -> e = IndexError.
Proof.
  destruct nm as [name m]. unfold visit.
  destruct name as [|c name]; [intros [= <-]; reflexivity|].
  cbn [first_item bind]. destruct (c =? USCORE)%N; [discriminate|].
  destruct (has_package m); [discriminate|]. destruct (has_base m); [discriminate|].
  destruct (has_call m).
  - destruct (getdetail _ _ _) eqn:G; [discriminate|]. cbn [bind].
    intros [= <-]. exact (getdetail_raise_kind _ _ _ _ G).
  - destruct (property_value _ _ _) eqn:P; [discriminate|]. cbn [bind].
    intros [= <-]. exact (property_value_raise_kind _ _ _ _ P).
Qed.

(** A turn of the loop that raises stops the loop, whatever has been
    collected. *)
Lemma for_members_stops (detail width : Z) (nm : str * member)
      (l : list (str * member)) :
  In nm l ->
  (forall acc, visit detail width acc nm = Raise IndexError) ->
  forall acc, for_members detail width acc l = Raise IndexError.
Proof.
  intros Hin Hv. induction l as [|x l IH]; [contradiction|]. intros acc.
  cbn [for_members]. destruct (visit detail width acc x) as [mid|e] eqn:V.
  - cbn [bind]. destruct Hin as [->|Hin]; [rewrite Hv in V; discriminate|].
    apply IH. exact Hin.
  - cbn [bind]. rewrite (visit_raise_kind _ _ _ _ _ V). reflexivity.
Qed.

(** A visible data member whose [str()] is empty raises at line 88. *)
Lemma visit_empty_value (detail width : Z) (acc : lists) (name : str) (m : member) :
  reserved name = false -> kind_of m = Data -> str_of m = [] ->
  visit detail width acc (name, m) = Raise IndexError.
Proof.
  intros Hr Hk Hs. unfold visit. destruct name as [|c name]; [reflexivity|].
  cbn [first_item bind]. cbn [reserved] in Hr. rewrite Hr.
  unfold kind_of in Hk.
  destruct (has_package m); [discriminate|]. destruct (has_base m); [discriminate|].
  destruct (has_call m); [discriminate|].
  unfold property_value. rewrite Hs. reflexivity.
Qed.

(** C1, on the code: the classifier does not place every visible member.  An
    object with a visible member that is neither a module, a class nor a
    callable, and whose [str()] is the empty string (an attribute [x = ''])
    gets no lists at all: the loop raises [IndexError] at line 88, at every
    level and every width, whatever its other members are. *)
Theorem classify_empty_value (obj : target) (detail width : Z)
        (name : str) (m : member) :
  In (name, m) (getmembers obj) ->
  reserved name = false -> kind_of m = Data -> str_of m = [] ->
  classify obj detail width = Raise IndexError.
Proof.
  intros Hin Hr Hk Hs. unfold classify.
  apply (for_members_stops detail width (name, m)).
  - apply (Permutation_in _ (Permutation_sym (sorted_by_perm _ _))). exact Hin.
  - intros acc. apply visit_empty_value; assumption.
Qed.

Lemma classify_empty_value_witness :
  classify (an_object (Some (py "A thing."))
              [(py "foo", a_function None); (py "x", a_string [] (py "''"));
               (py "Bar", a_class)])
           1 96
  = Raise IndexError.
Proof.
  exact (classify_empty_value
           (an_object (Some (py "A thing."))
              [(py "foo", a_function None); (py "x", a_string [] (py "''"));
               (py "Bar", a_class)])
           1 96 (py "x") (a_string [] (py "''"))
           (or_intror (or_introl eq_refl)) eq_refl eq_refl eq_refl).
Defined.

(** X23. When the classifier returns its four lists, each holds the names of
    the visible members (those whose name does not begin with '_') of one
    kind, the kind being the first that applies in the order module, type,
    callable, data.  Together the lists hold the visible members, each one
    once: the names of the four lists are a permutation of the visible names,
    without repetition across or within the lists when the members have
    distinct names, and no reserved name is in any list. *)
Theorem classify_partition (obj : target) (detail width : Z) (ls : lists) :
  classify obj detail width = Ok ls ->
  let ms := sorted_members (getmembers obj) in
  (names_of (modules ls) = of_kind Module ms /\
   names_of (types ls) = of_kind Type_ ms /\
   names_of (methods ls) = of_kind Callable ms /\
   names_of (properties ls) = of_kind Data ms) /\
  Permutation (all_names ls) (map fst (filter visible (getmembers obj))) /\
  (NoDup (map fst (getmembers obj)) -> NoDup (all_names ls)) /\
  (forall name, In name (all_names ls) -> reserved name = false).
Proof.
  intros H ms. destruct (classify_lists _ _ _ _ H) as (H1 & H2 & H3 & H4).
  fold ms in H1, H2, H3, H4.
  assert (P : Permutation (all_names ls)
                (map fst (filter visible (getmembers obj)))).
  { unfold all_names. rewrite H1, H2, H3, H4, of_kind_partition.
    apply Permutation_map, filter_perm, sorted_by_perm. }
  repeat split; try assumption.
  - intros N. apply (Permutation_NoDup (Permutation_sym P)).
    apply filter_names_NoDup. exact N.
  - intros name Hin. apply (filter_visible_in (getmembers obj)).
    exact (Permutation_in _ P Hin).
Qed.

Lemma classify_partition_witness :
  let obj := an_object None
               [(py "foo", a_function None); (py "n", an_int (py "7"));
                (py "Bar", a_class); (py "_hidden", an_int (py "1"));
                (py "m", a_module); (py "s", a_string (py "a b") (py "'a b'"))] in
  let ls := {| properties := [[py "n"; py "int"; py "7"];
                              [py "s"; py "str"; py "'a b'"]];
               methods := [[py "foo"; empty_docstring]];
               types := [[py "Bar"]]; modules := [[py "m"]] |} in
  let ms := sorted_members (getmembers obj) in
  (names_of (modules ls) = of_kind Module ms /\
   names_of (types ls) = of_kind Type_ ms /\
   names_of (methods ls) = of_kind Callable ms /\
   names_of (properties ls) = of_kind Data ms) /\
  Permutation (all_names ls) (map fst (filter visible (getmembers obj))) /\
  (NoDup (map fst (getmembers obj)) -> NoDup (all_names ls)) /\
  (forall name, In name (all_names ls) -> reserved name = false).
Proof.
  exact (classify_partition
           (an_object None
              [(py "foo", a_function None); (py "n", an_int (py "7"));
               (py "Bar", a_class); (py "_hidden", an_int (py "1"));
               (py "m", a_module); (py "s", a_string (py "a b") (py "'a b'"))])
           1 40
           {| properties := [[py "n"; py "int"; py "7"];
                             [py "s"; py "str"; py "'a b'"]];
              methods := [[py "foo"; empty_docstring]];
              types := [[py "Bar"]]; modules := [[py "m"]] |}
           eq_refl).
Defined.

(** Every visible member is in the list of its kind. *)
Lemma classify_places (obj : target) (detail width : Z) (ls : lists)
      (name : str) (m : member) :
  classify obj detail width = Ok ls ->
  In (name, m) (getmembers obj) -> reserved name = false ->
  In name (names_of (match kind_of m with
                     | Module => modules ls
                     | Type_ => types ls
                     | Callable => methods ls
                     | Data => properties ls
                     end)).
Proof.
  intros H Hin Hr.
  destruct (classify_lists _ _ _ _ H) as (H1 & H2 & H3 & H4).
  assert (G : forall k, kind_of m = k ->
                        In name (of_kind k (sorted_members (getmembers obj)))).
  { intros k Hk. unfold of_kind. apply in_map_iff. exists (name, m).
    split; [reflexivity|]. apply filter_In. split.
    - apply (Permutation_in _ (Permutation_sym (sorted_by_perm _ _))). exact Hin.
    - unfold visible. cbn [fst snd]. rewrite Hr, Hk. destruct k; reflexivity. }
  destruct (kind_of m) eqn:K;
    [rewrite H1|rewrite H2|rewrite H3|rewrite H4]; apply G; reflexivity.
Qed.

(** The classifier returns its lists when no turn of the loop raises. *)
Lemma visit_ok_acc (detail width : Z) (acc : lists) (nm : str * member) :
  visit_ok detail width nm = true -> exists acc', visit detail width acc nm = Ok acc'.
Proof.
  unfold visit_ok, visit. destruct nm as [name m].
  destruct (first_item name) as [c|]; [|discriminate]. cbn [bind].
  destruct (c =? USCORE)%N; [eauto|].
  destruct (has_package m); [eauto|]. destruct (has_base m); [eauto|].
  destruct (has_call m).
  - destruct (getdetail _ _ _); cbn [bind];
      [intros _; eexists; reflexivity|discriminate].
  - destruct (property_value _ _ _); cbn [bind];
      [intros _; eexists; reflexivity|discriminate].
Qed.

Lemma for_members_total (detail width : Z) (l : list (str * member)) :
  forallb (visit_ok detail width) l = true ->
  forall acc, exists acc', for_members detail width acc l = Ok acc'.
Proof.
  induction l as [|nm l IH]; intros H acc; [eexists; reflexivity|].
  cbn [forallb] in H. apply andb_true_iff in H as [Hx Hl].
  destruct (visit_ok_acc detail width acc nm Hx) as [mid Hm].
  cbn [for_members]. rewrite Hm. cbn [bind]. apply IH. exact Hl.
Qed.

(** ** C10: members of type [str] *)




(** The same member in a report, beside an [int] whose value is cut: the
    string is shown whole, beyond the width. *)
Example report_long_string :
  report (an_object (Some (py "A thing."))
            [(py "s", a_string (py "<b>long text</b>") (py "'<b>long text</b>'"));
             (py "n", an_int (py "123456789012345"))]) 1 12
  = ([ header (py "obj") (py "C") (py "A thing.");
       section (py "PROPERTIES")
               (py "n:int = 1234...5" ++ [NL] ++ py "s:str = '<b>long text</b>'") ],
     Ok tt).
Proof. reflexivity. Qed.

(** ** C7: fold *)

Lemma fold_left_max (l : list Z) (x : Z) :
  0 <= x -> fold_left Z.max l x = Z.max x (fold_right Z.max 0 l).
Proof.
  revert x. induction l as [|y l IH]; intros x Hx; cbn [fold_left fold_right].
  - lia.
  - rewrite IH by lia. lia.
Qed.

Lemma longest_bound (labels : list str) :
  0 <= longest labels /\ Forall (fun l => len l <= longest labels) labels.
Proof.
  unfold longest. induction labels as [|l ls [IH0 IH]]; cbn [map fold_right].
  - split; [lia|constructor].
  - split; [lia|]. constructor; [lia|].
    eapply Forall_impl; [|exact IH]. cbn. intros; lia.
Qed.

Lemma longest_attained (labels : list str) :
  labels <> [] -> exists l, In l labels /\ len l = longest labels.
Proof.
  induction labels as [|l ls IH]; [contradiction|]. intros _.
  destruct ls as [|l' ls].
  - exists l. split; [left; reflexivity|].
    unfold longest. cbn. pose proof (len_nonneg l). lia.
  - destruct (IH ltac:(discriminate)) as (m & Hin & Hm).
    unfold longest in *. cbn [map fold_right] in *.
    destruct (Z.max_spec (len l) (Z.max (len l') (fold_right Z.max 0 (map len ls))))
      as [[_ E]|[_ E]]; rewrite E.
    + exists m. split; [right; assumption|assumption].
    + exists l. split; [left; reflexivity|reflexivity].
Qed.

Lemma max_of_longest (labels : list str) :
  labels <> [] -> max_of (map len labels) = Ok (longest labels).
Proof.
  destruct labels as [|l ls]; [contradiction|]. intros _.
  unfold max_of, longest. cbn [map fold_right].
  rewrite fold_left_max by apply len_nonneg. reflexivity.
Qed.

Lemma len_ljust (size : Z) (s : str) : len s <= size -> len (ljust size s) = size.
Proof.
  intros H. unfold ljust. rewrite len_app. unfold len in *.
  rewrite repeat_length. lia.
Qed.

Lemma slice_window {A} (l : list A) (a n : Z) :
  0 <= a -> 0 <= n ->
  slice l a (a + n) = firstn (Z.to_nat n) (skipn (Z.to_nat a) l).
Proof.
  intros Ha Hn. unfold slice, clamp_index.
  destruct (a <? 0) eqn:E1; [apply Z.ltb_lt in E1; lia|].
  destruct (a + n <? 0) eqn:E2; [apply Z.ltb_lt in E2; lia|].
  set (L := Z.of_nat (length l)).
  destruct (Z.le_gt_cases L a) as [H|H].
  - rewrite Z.min_r by lia. rewrite Z.min_r by lia.
    rewrite Z.sub_diag. cbn [Z.to_nat firstn].
    rewrite (skipn_all2 (n := Z.to_nat a)) by (unfold L in H; lia).
    symmetry. apply firstn_nil.
  - rewrite (Z.min_l a) by lia.
    destruct (Z.le_gt_cases (a + n) L) as [H2|H2].
    + rewrite Z.min_l by lia. f_equal. lia.
    + rewrite Z.min_r by lia.
      rewrite !firstn_all2; [reflexivity| |];
        rewrite length_skipn; unfold L in *; lia.
Qed.

(** Cutting a list into [k] windows of [n] items loses nothing when
    [k * n] reaches its length. *)
Lemma concat_windows {A} (n : nat) (k : nat) :
  forall l : list A,
  (length l <= k * n)%nat ->
  concat (map (fun i => firstn n (skipn (i * n) l)) (seq 0 k)) = l.
Proof.
  induction k as [|k IH]; intros l H.
  - destruct l; [reflexivity|simpl in H; lia].
  - cbn [seq map concat]. rewrite <- seq_shift, map_map.
    change (skipn (0 * n) l) with l.
    rewrite (map_ext (fun i => firstn n (skipn (S i * n) l))
                     (fun i => firstn n (skipn (i * n) (skipn n l))))
      by (intros i; rewrite skipn_skipn; do 2 f_equal; lia).
    rewrite IH by (rewrite length_skipn; lia).
    apply firstn_skipn.
Qed.

Lemma range_len_up (L n : Z) :
  0 < L -> 0 < n -> range_len 0 L n = (L + n - 1) / n.
Proof.
  intros HL Hn. unfold range_len.
  destruct (0 <? n) eqn:E; [|apply Z.ltb_ge in E; lia].
  destruct (0 <? L) eqn:E2; [|apply Z.ltb_ge in E2; lia].
  replace (L + n - 1) with (L - 0 - 1 + 1 * n) by lia.
  rewrite Z.div_add by lia. reflexivity.
Qed.

Lemma ceil_div_bounds (L n : Z) :
  0 < L -> 0 < n ->
  let K := (L + n - 1) / n in
  L <= K * n /\ (K - 1) * n < L /\ 1 <= K.
Proof.
  intros HL Hn K. pose proof (Z.div_mod (L + n - 1) n ltac:(lia)) as D.
  pose proof (Z.mod_pos_bound (L + n - 1) n Hn) as B. fold K in D.
  repeat split; nia.
Qed.

Lemma fold_rows (cells : list str) (n : Z) :
  cells <> [] -> 0 < n ->
  range 0 (Z.of_nat (length cells)) n
  = Ok (map (fun i => Z.of_nat i * n)
            (seq 0 (Z.to_nat ((Z.of_nat (length cells) + n - 1) / n)))) /\
  map (fun p => slice cells p (p + n))
      (map (fun i => Z.of_nat i * n)
           (seq 0 (Z.to_nat ((Z.of_nat (length cells) + n - 1) / n))))
  = rows_of cells n.
Proof.
  intros Hc Hn.
  assert (HL : 0 < Z.of_nat (length cells))
    by (destruct cells; [contradiction|simpl length; lia]).
  split.
  - unfold range. replace (n =? 0) with false by (symmetry; apply Z.eqb_neq; lia).
    rewrite range_len_up by assumption. reflexivity.
  - unfold rows_of. rewrite map_map. apply map_ext. intros i.
    rewrite slice_window by lia. do 2 f_equal. lia.
Qed.

Lemma rows_of_concat (cells : list str) (n : Z) :
  cells <> [] -> 0 < n -> concat (rows_of cells n) = cells.
Proof.
  intros Hc Hn. unfold rows_of. apply concat_windows.
  assert (HL : 0 < Z.of_nat (length cells))
    by (destruct cells; [contradiction|simpl length; lia]).
  destruct (ceil_div_bounds _ _ HL Hn) as (B1 & _ & B3).
  set (K := (Z.of_nat (length cells) + n - 1) / n) in *.
  apply Nat2Z.inj_le. rewrite Nat2Z.inj_mul, !Z2Nat.id by lia. exact B1.
Qed.

Lemma rows_of_lengths (cells : list str) (n : Z) :
  cells <> [] -> 0 < n ->
  Z.of_nat (length (rows_of cells n)) = (Z.of_nat (length cells) + n - 1) / n /\
  Forall (fun row => 1 <= Z.of_nat (length row) <= n) (rows_of cells n).
Proof.
  intros Hc Hn.
  assert (HL : 0 < Z.of_nat (length cells))
    by (destruct cells; [contradiction|simpl length; lia]).
  destruct (ceil_div_bounds _ _ HL Hn) as (B1 & B2 & B3).
  unfold rows_of. set (K := (Z.of_nat (length cells) + n - 1) / n) in *.
  split.
  - rewrite length_map, length_seq. lia.
  - apply Forall_forall. intros row Hrow.
    apply in_map_iff in Hrow as (i & <- & Hi). apply in_seq in Hi.
    rewrite length_firstn, length_skipn.
    assert (Z.of_nat i * n <= (K - 1) * n) by nia.
    assert (Z.of_nat (i * Z.to_nat n) = Z.of_nat i * n)
      by (rewrite Nat2Z.inj_mul, Z2Nat.id by lia; reflexivity).
    lia.
Qed.

(** X1. The layout of [fold] when the width holds at least one cell.  The cell
    size is the length of the longest label plus 2, a row has
    [width // size] cells, there are [ceil(count / columns)] rows, none
    empty, and the cells of the rows, read in order, are the labels, each
    padded on the right to the cell size. *)
Theorem fold_layout (names : list entry) (labels : list str) (width : Z) :
  mapM entry_name names = Ok labels ->
  labels <> [] ->
  longest labels + 2 <= width ->
  let size := longest labels + 2 in
  let n := width / size in
  let rows := rows_of (map (ljust size) labels) n in
  fold names width = Ok (join [NL] (map (@concat N) rows)) /\
  1 <= n /\
  concat rows = map (ljust size) labels /\
  Forall (fun cell => len cell = size) (concat rows) /\
  Z.of_nat (length rows) = (Z.of_nat (length labels) + n - 1) / n /\
  Forall (fun row => 1 <= Z.of_nat (length row) <= n) rows.
Proof.
  intros Hm Hl Hw size n rows.
  destruct (longest_bound labels) as [L0 Lb].
  assert (Hsize : 0 < size) by (unfold size; lia).
  assert (Hn : 0 < n) by (apply Z.div_str_pos; unfold size in *; lia).
  assert (Hc : map (ljust size) labels <> [])
    by (destruct labels; [contradiction|discriminate]).
  destruct (fold_rows _ n Hc Hn) as [Hr Hrows].
  destruct (rows_of_lengths _ n Hc Hn) as [Hcount Hlen].
  pose proof (rows_of_concat _ n Hc Hn) as Hcat.
  fold rows in Hrows, Hcount, Hlen, Hcat. rewrite length_map in Hcount.
  repeat split; try assumption; try lia.
  - unfold fold. rewrite Hm. cbn [bind]. rewrite max_of_longest by assumption.
    cbn [bind]. fold size. fold n. rewrite Hr. cbn [bind].
    rewrite <- Hrows, !map_map. reflexivity.
  - rewrite Hcat. apply Forall_forall. intros cell Hin.
    apply in_map_iff in Hin as (l & <- & Hin). apply len_ljust.
    rewrite Forall_forall in Lb. specialize (Lb l Hin). unfold size. lia.
Qed.

Lemma fold_layout_witness :
  let labels := [py "alpha"; py "b"; py "gamma"] in
  let rows := rows_of (map (ljust 7) labels) 2 in
  fold [[py "alpha"]; [py "b"]; [py "gamma"]] 15
  = Ok (join [NL] (map (@concat N) rows)) /\
  1 <= 2 /\
  concat rows = map (ljust 7) labels /\
  Forall (fun cell => len cell = 7) (concat rows) /\
  Z.of_nat (length rows) = (3 + 2 - 1) / 2 /\
  Forall (fun row => 1 <= Z.of_nat (length row) <= 2) rows.
Proof.
  refine (fold_layout [[py "alpha"]; [py "b"]; [py "gamma"]]
            [py "alpha"; py "b"; py "gamma"] 15 eq_refl _ _).
  - discriminate.
  - cbv. discriminate.
Defined.

(** C7, on the code: when the longest label and its padding do not fit in
    the width, the number of columns is 0, not 1, and [range] refuses the
    step. *)
Theorem fold_narrow_width_raises :
  fold [[py "alpha"]] 5 = Raise ValueError /\
  fold [[py "alpha"]; [py "b"]; [py "gamma"]] 6 = Raise ValueError /\
  report (an_object (Some (py "A thing.")) [(py "alpha", an_int (py "1"))]) 0 5
  = ([header (py "obj") (py "C") (py "A thing.")], Raise ValueError).
Proof. repeat split. Qed.

(** ** C2: does the report always come out? *)

(** C2, on the code: four calls that end in an exception.  A member that is
    the empty string (line 88, [pvalue[0]]); a function whose docstring is a
    line of dashes, and one with a signature followed by two blank lines
    (line 57, [block.split()[0]]); an object whose own docstring is a line
    of '=' (the same line 57, before anything is printed). *)
Theorem report_aborts :
  report (an_object (Some (py "A thing.")) [(py "x", a_string [] (py "''"))]) 1 96
  = ([header (py "obj") (py "C") (py "A thing.")], Raise IndexError) /\
  report (an_object (Some (py "A thing."))
            [(py "f", a_function (Some (py "-----")))]) 1 96
  = ([header (py "obj") (py "C") (py "A thing.")], Raise IndexError) /\
  report (an_object (Some (py "A thing."))
            [(py "f", a_function
                        (Some (py "f(x)" ++ [NL; NL; NL; NL] ++ py "Does f.")))]) 2 96
  = ([header (py "obj") (py "C") (py "A thing.")], Raise IndexError) /\
  report (an_object (Some (py "=====")) []) 0 96 = ([], Raise IndexError).
Proof. repeat split. Qed.

Lemma sorted_by_forallb {A} (leb : A -> A -> bool) (p : A -> bool) (l : list A) :
  forallb p l = true -> forallb p (sorted_by leb l) = true.
Proof.
  rewrite !forallb_forall. intros H x Hx. apply H.
  exact (Permutation_in _ (sorted_by_perm leb l) Hx).
Qed.

Lemma for_members_reserved (detail width : Z) (acc : lists)
      (l : list (str * member)) :
  forallb (fun nm => reserved (fst nm)) l = true ->
  for_members detail width acc l = Ok acc.
Proof.
  induction l as [|[name m] l IH]; [reflexivity|]. cbn [forallb fst].
  intros H. apply andb_true_iff in H as [Hr Hl].
  cbn [for_members visit]. destruct name as [|c name]; [discriminate|].
  cbn [reserved] in Hr. cbn [first_item bind]. rewrite Hr. cbn [bind].
  apply IH. exact Hl.
Qed.

(** X2. An object without visible members: the header, and no section, provided
    the role line can be computed. *)
Lemma report_no_visible_members (obj : target) (detail width : Z) (role : str) :
  getdetail (obj_doc obj) 2 (width - 8) = Ok role ->
  forallb (fun nm => reserved (fst nm)) (getmembers obj) = true ->
  report obj detail width
  = ([header (display_name obj) (obj_type obj) (strip role)], Ok tt).
Proof.
  intros Hrole Hres. unfold report, inspect, io_bind, lift, print.
  rewrite Hrole. unfold classify, sorted_members.
  rewrite for_members_reserved by (apply sorted_by_forallb; exact Hres).
  cbn [no_lists modules types methods properties print_section is_nil io_ret].
  destruct (negb (detail =? 0)); reflexivity.
Qed.

Example report_nothing_to_show :
  report {| own_name := None; caller_keys := []; obj_type := py "object";
            obj_doc := None; getmembers := [(py "__doc__", an_int (py "0"))] |} 1 96
  = ([header empty_name (py "object") empty_docstring], Ok tt).
Proof. reflexivity. Qed.

Lemma report_no_visible_members_witness :
  report {| own_name := None; caller_keys := []; obj_type := py "object";
            obj_doc := None; getmembers := [(py "__doc__", an_int (py "0"))] |} 0 96
  = ([header empty_name (py "object") (strip empty_docstring)], Ok tt).
Proof.
  exact (report_no_visible_members
           {| own_name := None; caller_keys := []; obj_type := py "object";
              obj_doc := None; getmembers := [(py "__doc__", an_int (py "0"))] |}
           0 96 empty_docstring eq_refl eq_refl).
Defined.

(** ** The order inside a list *)

Lemma str_compare_antisym (a b : str) :
  str_compare b a = CompOpp (str_compare a b).
Proof.
  unfold str_compare. revert b. induction a as [|x a IH]; intros [|y b];
    try reflexivity.
  cbn [lex_compare]. rewrite (N.compare_antisym x y).
  destruct (x ?= y)%N; cbn [CompOpp]; auto.
Qed.

Lemma name_le_total (a b : str) :
  leb_of str_compare a b = false -> name_le b a.
Proof.
  unfold name_le, leb_of. rewrite (str_compare_antisym a b).
  destruct (str_compare a b); cbn; congruence.
Qed.

Lemma name_le_trans (a b c : str) : name_le a b -> name_le b c -> name_le a c.
Proof.
  unfold name_le, leb_of, str_compare.
  revert b c. induction a as [|x a IH]; intros [|y b] [|z c];
    cbn [lex_compare]; try congruence.
  destruct (x ?= y)%N eqn:Exy; try congruence.
  - apply N.compare_eq in Exy. subst y.
    destruct (x ?= z)%N; try congruence. apply IH.
  - destruct (y ?= z)%N eqn:Eyz; try congruence.
    + apply N.compare_eq in Eyz. subst z. rewrite Exy. auto.
    + rewrite N.compare_lt_iff in Exy, Eyz.
      assert (L : (x < z)%N) by lia. rewrite <- N.compare_lt_iff in L.
      rewrite L. auto.
Qed.

Section InsertionSort.
Variable A : Type.
Variable leb : A -> A -> bool.
Hypothesis leb_total : forall x y, leb x y = false -> leb y x = true.
Hypothesis leb_trans :
  forall x y z, leb x y = true -> leb y z = true -> leb x z = true.

Let le (x y : A) : Prop := leb x y = true.

Lemma insert_by_sorted (x : A) (l : list A) :
  StronglySorted le l -> StronglySorted le (insert_by leb x l).
Proof.
  induction 1 as [|y l Hs IH Hy]; cbn [insert_by].
  - repeat constructor.
  - destruct (leb x y) eqn:E.
    + constructor; [constructor; assumption|].
      constructor; [exact E|].
      eapply Forall_impl; [|exact Hy]. intros z Hz. exact (leb_trans _ _ _ E Hz).
    + constructor; [exact IH|].
      apply Forall_forall. intros z Hz.
      apply (Permutation_in _ (insert_by_perm leb x l)) in Hz.
      destruct Hz as [<-|Hz]; [exact (leb_total _ _ E)|].
      rewrite Forall_forall in Hy. exact (Hy z Hz).
Qed.

Lemma sorted_by_sorted (l : list A) : StronglySorted le (sorted_by leb l).
Proof.
  induction l as [|x l IH]; [constructor|]. apply insert_by_sorted. exact IH.
Qed.
End InsertionSort.

Lemma filter_sorted {A} (R : A -> A -> Prop) (p : A -> bool) (l : list A) :
  StronglySorted R l -> StronglySorted R (filter p l).
Proof.
  induction 1 as [|x l Hs IH Hx]; cbn [filter]; [constructor|].
  destruct (p x); [|exact IH]. constructor; [exact IH|].
  apply Forall_forall. intros y Hy. apply filter_In in Hy as [Hy _].
  rewrite Forall_forall in Hx. exact (Hx y Hy).
Qed.

Lemma map_fst_sorted (l : list (str * member)) :
  StronglySorted (fun a b => name_le (fst a) (fst b)) l ->
  StronglySorted name_le (map fst l).
Proof.
  induction 1 as [|x l Hs IH Hx]; cbn [map]; constructor; [exact IH|].
  apply Forall_forall. intros y Hy. apply in_map_iff in Hy as (nm & <- & Hnm).
  rewrite Forall_forall in Hx. exact (Hx nm Hnm).
Qed.

Lemma of_kind_sorted (k : kind) (l : list (str * member)) :
  StronglySorted name_le (of_kind k (sorted_members l)).
Proof.
  unfold of_kind. apply map_fst_sorted, filter_sorted.
  unfold sorted_members. apply sorted_by_sorted.
  - intros x y. apply name_le_total.
  - intros x y z. apply name_le_trans.
Qed.

(** X4. Inside each of the four lists the names ascend, in the order of
    Python strings (code point by code point, so upper case first). *)
Theorem classify_ascending (obj : target) (detail width : Z) (ls : lists) :
  classify obj detail width = Ok ls ->
  StronglySorted name_le (names_of (modules ls)) /\
  StronglySorted name_le (names_of (types ls)) /\
  StronglySorted name_le (names_of (methods ls)) /\
  StronglySorted name_le (names_of (properties ls)).
Proof.
  intros H. destruct (classify_lists _ _ _ _ H) as (H1 & H2 & H3 & H4).
  rewrite H1, H2, H3, H4. repeat split; apply of_kind_sorted.
Qed.

Lemma classify_ascending_witness :
  let ls := {| properties := [[py "n"; py "int"; py "42"]];
               methods := [[py "Zed"; empty_docstring]; [py "foo"; empty_docstring]];
               types := []; modules := [] |} in
  StronglySorted name_le (names_of (modules ls)) /\
  StronglySorted name_le (names_of (types ls)) /\
  StronglySorted name_le (names_of (methods ls)) /\
  StronglySorted name_le (names_of (properties ls)).
Proof.
  exact (classify_ascending
           (an_object None
              [(py "foo", a_function None); (py "n", an_int (py "42"));
               (py "Zed", a_function None)])
           1 40
           {| properties := [[py "n"; py "int"; py "42"]];
              methods := [[py "Zed"; empty_docstring]; [py "foo"; empty_docstring]];
              types := []; modules := [] |}
           eq_refl).
Defined.

(** ** Level 2 *)

(** X3. Level 2: the selected block, two spaces in front of every line but the
    first. *)
Theorem getdetail_level2_lines (doc : option str) (width : Z) (block : str) :
  selected_block doc = Ok block ->
  getdetail doc 2 width = Ok (join [NL] (indent_tail (split [NL] block))).
Proof.
  intros H. rewrite getdetail_low by lia. rewrite H. cbn [bind Z.eqb Pos.eqb].
  rewrite replace_indent_lines. reflexivity.
Qed.

Lemma getdetail_level2_lines_witness :
  getdetail (Some (py "Adds." ++ [NL] ++ py "More")) 2 30
  = Ok (join [NL] (indent_tail (split [NL] (py "Adds." ++ [NL] ++ py "More")))).
Proof.
  exact (getdetail_level2_lines (Some (py "Adds." ++ [NL] ++ py "More")) 30
           (py "Adds." ++ [NL] ++ py "More") eq_refl).
Defined.

(** * Further properties of the code *)

(** ** getdetail: when it raises, and what it returns *)

Lemma signature_like_has_token (b : str) :
  signature_like b = true -> has_token b = true.
Proof.
  unfold signature_like, has_token. destruct (split_ws b); [discriminate|reflexivity].
Qed.

(** The loop raises exactly when it reaches a block without a token. *)
Lemma for_block_raises (blocks : list str) (e : exn) :
  for_block blocks = Raise e <->
  (blocks = [] /\ e = NameError) \/
  (e = IndexError /\
   exists pre b post,
     blocks = pre ++ b :: post /\
     Forall (fun x => signature_like x = true) pre /\
     has_token b = false).
Proof.
  split.
  - induction blocks as [|x rest IH]; [intros [= <-]; auto|].
    cbn [for_block]. destruct (split_ws x) as [|tok toks] eqn:T.
    + intros [= <-]. right. split; [reflexivity|].
      exists [], x, rest. repeat split; [constructor|].
      unfold has_token. rewrite T. reflexivity.
    + cbn [first_item bind]. destruct (has_char LPAREN tok) eqn:P; cbn [negb];
        [|discriminate].
      destruct rest as [|y rest']; [discriminate|]. intros H.
      destruct (IH H) as [[? _]|(-> & pre & b & post & E & Hpre & Hb)];
        [discriminate|].
      right. split; [reflexivity|]. exists (x :: pre), b, post.
      rewrite E. repeat split; [|assumption].
      constructor; [|assumption]. unfold signature_like. rewrite T. exact P.
  - intros [[-> ->]|(-> & pre & b & post & -> & Hpre & Hb)]; [reflexivity|].
    induction Hpre as [|x pre Hx Hpre IH].
    + cbn [app for_block]. unfold has_token in Hb.
      destruct (split_ws b); [reflexivity|discriminate].
    + cbn [app for_block]. unfold signature_like in Hx.
      destruct (split_ws x) as [|tok toks]; [discriminate|].
      cbn [first_item bind]. rewrite Hx. cbn [negb].
      destruct (pre ++ b :: post) eqn:E; [destruct pre; discriminate|].
      exact IH.
Qed.

(** X5. [getdetail] raises nothing but [IndexError], never at level 3, and
    exactly when a block without a token (an empty block, or one of white
    space) comes before any block whose leading token has no opening
    parenthesis. *)
Theorem getdetail_raises (doc : option str) (detail width : Z) (e : exn) :
  getdetail doc detail width = Raise e <->
  detail <> 3 /\ e = IndexError /\
  exists pre b post,
    blocks_of doc = pre ++ b :: post /\
    Forall (fun x => signature_like x = true) pre /\
    has_token b = false.
Proof.
  destruct (Z.eq_dec detail 3) as [->|Hd].
  - split; [discriminate|]. intros [H _]. contradiction.
  - rewrite getdetail_low by assumption. unfold selected_block.
    fold (blocks_of doc).
    assert (R : (block <- for_block (blocks_of doc) ;;
                 (if detail =? 2 then Ok (replace [NL] INDENT block)
                  else
                    let index := if negb (has_char NL block) then width
                                 else Z.min width (find [NL] block) in
                    Ok (slice_to block index
                        ++ (if len block >? index then ellipsis else []))))
                = Raise e <-> for_block (blocks_of doc) = Raise e).
    { destruct (for_block (blocks_of doc)); cbn [bind]; [|tauto].
      destruct (detail =? 2); split; discriminate. }
    rewrite R, for_block_raises. split.
    + intros [[H _]|[He H]].
      * exfalso. exact (split_not_nil _ _ H).
      * auto.
    + intros (_ & He & H). right. auto.
Qed.

Lemma not_has_char_app (c : N) (a b : str) :
  has_char c (a ++ b) = has_char c a || has_char c b.
Proof. rewrite !has_char_existsb. apply existsb_app. Qed.

Lemma has_char_firstn (c : N) (n : nat) (s : str) :
  has_char c s = false -> has_char c (firstn n s) = false.
Proof.
  rewrite !has_char_existsb. revert n. induction s as [|x s IH]; intros [|n] H;
    try reflexivity.
  cbn [existsb firstn] in *. apply orb_false_iff in H as [H1 H2].
  rewrite H1, (IH n H2). reflexivity.
Qed.

Lemma before_no_char (c : N) (s : str) : has_char c (before c s) = false.
Proof.
  induction s as [|x s IH]; [reflexivity|]. rewrite before_cons.
  destruct (c =? x)%N eqn:E; [reflexivity|]. rewrite has_char_cons, E. exact IH.
Qed.

Lemma before_prefix (c : N) (s : str) :
  before c s = firstn (length (before c s)) s.
Proof.
  induction s as [|x s IH]; [reflexivity|]. rewrite before_cons.
  destruct (c =? x)%N; [reflexivity|]. cbn [length firstn]. rewrite <- IH.
  reflexivity.
Qed.

Lemma before_all (c : N) (s : str) : has_char c s = false -> before c s = s.
Proof.
  induction s as [|x s IH]; [reflexivity|]. rewrite has_char_cons, before_cons.
  intros H. apply orb_false_iff in H as [H1 H2]. rewrite H1, (IH H2). reflexivity.
Qed.

(** X6. At levels 0 and 1 and for a width that is not negative, what
    [getdetail] returns is one line: it holds no line break. *)
Theorem getdetail_one_line (doc : option str) (detail width : Z) (out : str) :
  detail = 0 \/ detail = 1 ->
  0 <= width ->
  getdetail doc detail width = Ok out ->
  has_char NL out = false.
Proof.
  intros Hd Hw. rewrite getdetail_low by lia.
  destruct (selected_block doc) as [block|]; [|discriminate]. cbn [bind].
  replace (detail =? 2) with false by (symmetry; apply Z.eqb_neq; lia).
  rewrite find_char. cbv zeta. intros [= <-].
  rewrite not_has_char_app. apply orb_false_iff. split;
    [|destruct (_ >? _); reflexivity].
  destruct (has_char NL block) eqn:Hb; cbn [negb].
  - pose proof (len_nonneg (before NL block)).
    rewrite slice_to_nonneg by lia.
    replace (firstn (Z.to_nat (Z.min width (len (before NL block)))) block)
      with (firstn (Z.to_nat (Z.min width (len (before NL block))))
                   (before NL block)).
    + apply has_char_firstn, before_no_char.
    + rewrite (before_prefix NL block) at 2. rewrite firstn_firstn.
      f_equal. unfold len. lia.
  - rewrite slice_to_nonneg by lia. apply has_char_firstn. exact Hb.
Qed.

Lemma getdetail_one_line_witness :
  has_char NL (py "Adds." ++ ellipsis) = false.
Proof.
  refine (getdetail_one_line
            (Some (py "f(x, y)" ++ [NL; NL] ++ py "Adds." ++ [NL] ++ py "More"))
            1 30 (py "Adds." ++ ellipsis) (or_intror eq_refl) _ eq_refl).
  lia.
Defined.

Lemma replace_char_not_nil (c : N) (new s : str) :
  s <> [] -> new <> [] -> replace [c] new s <> [].
Proof.
  destruct s as [|x s]; [contradiction|]. intros _ Hn. rewrite replace_char_cons.
  destruct (c =? x)%N; [|discriminate].
  destruct new; [contradiction|discriminate].
Qed.

(** X7. Whatever the level and the width, [getdetail] never returns the
    empty string. *)
Theorem getdetail_never_empty (doc : option str) (detail width : Z) (out : str) :
  getdetail doc detail width = Ok out -> out <> [].
Proof.
  destruct (Z.eq_dec detail 3) as [->|Hd].
  - unfold getdetail. cbn [Z.eqb Pos.eqb]. intros [= <-].
    destruct (replace _ _ _); discriminate.
  - rewrite getdetail_low by assumption.
    destruct (selected_block doc) as [block|] eqn:Hb; [|discriminate].
    cbn [bind]. pose proof (for_block_nonempty _ _ Hb) as Hne.
    destruct (detail =? 2).
    + intros [= <-]. apply replace_char_not_nil; [assumption|discriminate].
    + cbv zeta. set (index := if negb (has_char NL block) then width
                              else Z.min width (find [NL] block)).
      intros [= <-]. destruct (len block >? index) eqn:G.
      * destruct (slice_to block index); discriminate.
      * rewrite Z.gtb_ltb, Z.ltb_ge in G.
        assert (0 < len block)
          by (destruct block; [contradiction|unfold len; simpl length; lia]).
        rewrite slice_to_nonneg by lia. rewrite app_nil_r.
        rewrite firstn_all2 by (unfold len in *; lia). assumption.
Qed.

Lemma getdetail_never_empty_witness : py "abcd" ++ ellipsis <> [].
Proof.
  exact (getdetail_never_empty (Some (py "abcdef")) 1 (-2)
           (py "abcd" ++ ellipsis) eq_refl).
Defined.

(** ** fold: the widths that hold no cell *)

(** X8. With labels to lay out, [fold] raises [ValueError] for every width
    from 0 up to, not including, the cell size, and returns the empty string,
    dropping every label, for every negative width. *)
Theorem fold_no_cell (names : list entry) (labels : list str) (width : Z) :
  mapM entry_name names = Ok labels ->
  labels <> [] ->
  (0 <= width < longest labels + 2 -> fold names width = Raise ValueError) /\
  (width < 0 -> fold names width = Ok []).
Proof.
  intros Hm Hl. destruct (longest_bound labels) as [L0 _].
  unfold fold. rewrite Hm. cbn [bind]. rewrite max_of_longest by assumption.
  cbn [bind]. split; intros Hw.
  - rewrite Z.div_small by lia. reflexivity.
  - assert (Hn : width / (longest labels + 2) < 0)
      by (apply Z.div_lt_upper_bound; lia).
    unfold range, range_len.
    replace (width / (longest labels + 2) =? 0) with false
      by (symmetry; apply Z.eqb_neq; lia).
    replace (0 <? width / (longest labels + 2)) with false
      by (symmetry; apply Z.ltb_ge; lia).
    replace (Z.of_nat (length (map (ljust (longest labels + 2)) labels)) <? 0)
      with false by (symmetry; apply Z.ltb_ge; lia).
    reflexivity.
Qed.

Lemma fold_no_cell_witness :
  fold [[py "alpha"]; [py "b"]] 6 = Raise ValueError /\
  fold [[py "alpha"]; [py "b"]] (-1) = Ok [].
Proof.
  split.
  - refine (proj1 (fold_no_cell [[py "alpha"]; [py "b"]] [py "alpha"; py "b"] 6
                     eq_refl _) _);
      [discriminate|cbv; split; [discriminate|reflexivity]].
  - refine (proj2 (fold_no_cell [[py "alpha"]; [py "b"]] [py "alpha"; py "b"] (-1)
                     eq_refl _) _); [discriminate|reflexivity].
Defined.

(** ** The entries of the four lists *)

Lemma visit_shapes (detail width : Z) (acc acc' : lists) (nm : str * member) :
  shapes_ok acc -> visit detail width acc nm = Ok acc' -> shapes_ok acc'.
Proof.
  intros (Hp & Hm & Ht & Ho). destruct nm as [name m]. unfold visit.
  destruct (first_item name) as [c|]; [|discriminate]. cbn [bind].
  destruct (c =? USCORE)%N; [intros [= <-]; repeat split; assumption|].
  destruct (has_package m);
    [intros [= <-]; repeat split; cbn; try assumption;
     apply Forall_app; auto|].
  destruct (has_base m);
    [intros [= <-]; repeat split; cbn; try assumption;
     apply Forall_app; auto|].
  destruct (has_call m).
  - destruct (getdetail _ _ _); [|discriminate]. cbn [bind].
    intros [= <-]. repeat split; cbn; try assumption. apply Forall_app; auto.
  - destruct (property_value _ _ _); [|discriminate]. cbn [bind].
    intros [= <-]. repeat split; cbn; try assumption. apply Forall_app; auto.
Qed.

Lemma for_members_shapes (detail width : Z) (l : list (str * member)) :
  forall acc acc',
  shapes_ok acc -> for_members detail width acc l = Ok acc' -> shapes_ok acc'.
Proof.
  induction l as [|nm l IH]; intros acc acc' Hs; [intros [= <-]; exact Hs|].
  cbn [for_members]. destruct (visit detail width acc nm) as [mid|] eqn:V;
    [|discriminate].
  cbn [bind]. apply IH. exact (visit_shapes _ _ _ _ _ Hs V).
Qed.

Lemma mapM_length {A B} (f : A -> result B) (l : list A) (r : list B) :
  mapM f l = Ok r -> length r = length l.
Proof.
  revert r. induction l as [|x l IH]; intros r; [intros [= <-]; reflexivity|].
  cbn [mapM]. destruct (f x); [|discriminate]. cbn [bind].
  destruct (mapM f l); [|discriminate]. cbn [bind]. intros [= <-].
  cbn [length]. rewrite (IH _ eq_refl). reflexivity.
Qed.

Lemma mapM_all_ok {A B} (f : A -> result B) (l : list A) :
  Forall (fun x => exists y, f x = Ok y) l -> exists r, mapM f l = Ok r.
Proof.
  induction 1 as [|x l [y Hy] _ [r Hr]]; [eexists; reflexivity|].
  cbn [mapM]. rewrite Hy, Hr. eexists. reflexivity.
Qed.

(** X9. The lists the classifier returns hold entries of three items
    (properties), two (methods) and one (types, modules); the unpackings
    [name,*info] of [fold], [name,type,value] and [name,doc] of the detail
    mode therefore never raise on them. *)
Theorem classify_entry_shapes (obj : target) (detail width : Z) (ls : lists) :
  classify obj detail width = Ok ls ->
  shapes_ok ls /\
  (exists lines, mapM property_line
                   (sorted_by (leb_of entry_compare) (properties ls)) = Ok lines) /\
  (exists lines, mapM method_line (methods ls) = Ok lines) /\
  (forall l, In l [properties ls; methods ls; types ls; modules ls] ->
             exists names, mapM entry_name l = Ok names).
Proof.
  intros H. unfold classify in H.
  assert (S : shapes_ok ls).
  { eapply for_members_shapes; [|exact H]. repeat split; constructor. }
  split; [exact S|]. destruct S as (Hp & Hm & Ht & Ho).
  assert (N : forall k (l : list entry),
            Forall (fun e => length e = S k) l ->
            exists names, mapM entry_name l = Ok names).
  { intros k l Hl. apply mapM_all_ok. eapply Forall_impl; [|exact Hl].
    intros [|x e] He; [discriminate|]. eexists. reflexivity. }
  repeat split.
  - apply mapM_all_ok.
    apply (Permutation_Forall (Permutation_sym (sorted_by_perm _ _))).
    eapply Forall_impl; [|exact Hp].
    intros [|a [|b [|c [|d e]]]] He; try discriminate. eexists. reflexivity.
  - apply mapM_all_ok. eapply Forall_impl; [|exact Hm].
    intros [|a [|b [|c e]]] He; try discriminate. eexists. reflexivity.
  - intros l [<-|[<-|[<-|[<-|[]]]]]; eapply N; eassumption.
Qed.

Lemma classify_entry_shapes_witness :
  let ls := {| properties := [[py "n"; py "int"; py "42"]];
               methods := [[py "Zed"; empty_docstring]; [py "foo"; empty_docstring]];
               types := []; modules := [] |} in
  shapes_ok ls /\
  (exists lines, mapM property_line
                   (sorted_by (leb_of entry_compare) (properties ls)) = Ok lines) /\
  (exists lines, mapM method_line (methods ls) = Ok lines) /\
  (forall l, In l [properties ls; methods ls; types ls; modules ls] ->
             exists names, mapM entry_name l = Ok names).
Proof.
  exact (classify_entry_shapes
           (an_object None
              [(py "foo", a_function None); (py "n", an_int (py "42"));
               (py "Zed", a_function None)])
           1 40
           {| properties := [[py "n"; py "int"; py "42"]];
              methods := [[py "Zed"; empty_docstring]; [py "foo"; empty_docstring]];
              types := []; modules := [] |}
           eq_refl).
Defined.

(** ** The value shown for a property *)

Lemma has_char_false_iff (c : N) (s : str) : has_char c s = false <-> ~ In c s.
Proof.
  induction s as [|x s IH]; [cbn; tauto|]. rewrite has_char_cons, orb_false_iff, IH.
  cbn [In]. rewrite N.eqb_neq. split; [intros [H1 H2] [E|E]; auto|].
  intros H. split; intros E; apply H; auto.
Qed.

Lemma dropwhile_incl {A} (p : A -> bool) (l : list A) (x : A) :
  In x (dropwhile p l) -> In x l.
Proof.
  induction l as [|y l IH]; [auto|]. cbn [dropwhile].
  destruct (p y); [right; auto|auto].
Qed.

Lemma strip_incl (s : str) (x : N) : In x (strip s) -> In x s.
Proof.
  unfold strip, rstrip, lstrip. intros H. apply in_rev in H.
  apply dropwhile_incl in H. apply in_rev in H. exact (dropwhile_incl _ _ _ H).
Qed.








(** ** The sections of a report *)

Lemma io_bind_ok {A B} (m : io A) (k : A -> io B) (out out' : list str) (b : B) :
  io_bind m k out = (out', Ok b) ->
  exists a mid, m out = (mid, Ok a) /\ k a mid = (out', Ok b).
Proof.
  unfold io_bind. destruct (m out) as [mid [a|e]]; [eauto|discriminate].
Qed.

Lemma is_nil_length {A B} (l : list A) (l' : list B) :
  length l = length l' -> is_nil l = is_nil l'.
Proof. destruct l, l'; cbn; congruence. Qed.

(** A section is printed when the list is not empty, and only then. *)
Lemma print_section_ok {A} (items : list A) (title : str) (body : result str)
      (out out' : list str) :
  print_section items title body out = (out', Ok tt) ->
  (is_nil items = true /\ out' = out) \/
  (is_nil items = false /\
   exists b, body = Ok b /\ out' = out ++ [[NL; BULLET; SP] ++ title ++ [NL] ++ b]).
Proof.
  unfold print_section. destruct (is_nil items).
  - intros [= <-]. left. auto.
  - intros H. apply io_bind_ok in H as (b & mid & H1 & H2).
    unfold lift in H1. injection H1 as <- H1. unfold print in H2.
    injection H2 as <-. right. split; [reflexivity|]. exists b. auto.
Qed.

(** X11. A report that ends normally is made of the header followed by one
    section for each of the four lists that is not empty, in the order
    modules, types, properties (or constants), methods (or functions): an
    empty category prints nothing, at every level.  A section is a line
    break, the bullet and the title of its kind, a line break, and the body
    of its kind: the names in columns, or at a level other than 0 one line
    for each property and each method. *)
Theorem report_sections (obj : target) (detail width : Z) (ls : lists)
        (out : list str) :
  classify obj detail width = Ok ls ->
  report obj detail width = (out, Ok tt) ->
  length out = S (filled ls) /\
  exists role bodies,
    getdetail (obj_doc obj) 2 (width - 8) = Ok role /\
    Forall2 (fun k body => body_of detail width k (list_of k ls) = Ok body)
            (shown ls) bodies /\
    out = ([BULLET] ++ py " NAME = " ++ display_name obj
           ++ py " / TYPE = " ++ obj_type obj
           ++ [NL; BULLET] ++ py " ROLE = " ++ strip role)
          :: map (fun kb => [NL; BULLET; SP] ++ title_of obj (fst kb)
                            ++ [NL] ++ snd kb)
                 (combine (shown ls) bodies).
Proof.
  intros Hc H. unfold report, inspect in H.
  apply io_bind_ok in H as (role & o1 & H1 & H).
  unfold lift in H1. injection H1 as <- Hrole.
  apply io_bind_ok in H as ([] & o2 & H2 & H).
  unfold print in H2. injection H2 as <-.
  apply io_bind_ok in H as (ls' & o3 & H3 & H).
  unfold lift in H3. rewrite Hc in H3. injection H3 as <- <-.
  apply io_bind_ok in H as ([] & o4 & H4 & H).
  apply print_section_ok in H4.
  apply io_bind_ok in H as ([] & o5 & H5 & H).
  apply print_section_ok in H5.
  assert (G : exists o6,
             ((is_nil (properties ls) = true /\ o6 = o5) \/
              (is_nil (properties ls) = false /\
               exists b, body_of detail width Data (properties ls) = Ok b /\
                         o6 = o5 ++ [[NL; BULLET; SP] ++ title_of obj Data
                                     ++ [NL] ++ b])) /\
             ((is_nil (methods ls) = true /\ out = o6) \/
              (is_nil (methods ls) = false /\
               exists b, body_of detail width Callable (methods ls) = Ok b /\
                         out = o6 ++ [[NL; BULLET; SP] ++ title_of obj Callable
                                      ++ [NL] ++ b]))).
  { unfold body_of, title_of. destruct (detail =? 0); cbn [negb] in H.
    - apply io_bind_ok in H as ([] & o6 & H6 & H).
      apply print_section_ok in H6, H. exists o6. auto.
    - apply io_bind_ok in H as (props & o6 & H6 & H).
      unfold lift in H6. injection H6 as <- H6.
      apply io_bind_ok in H as ([] & o7 & H7 & H).
      apply print_section_ok in H7.
      apply io_bind_ok in H as (meths & o8 & H8 & H).
      unfold lift in H8. injection H8 as <- H8.
      apply print_section_ok in H.
      pose proof (mapM_length _ _ _ H6) as L6.
      pose proof (mapM_length _ _ _ H8) as L8.
      rewrite (Permutation_length (sorted_by_perm _ _)) in L6.
      rewrite (is_nil_length _ _ L6) in H7.
      rewrite (is_nil_length _ _ L8) in H.
      rewrite H6, H8. cbn [bind]. exists o7. auto. }
  destruct G as (o6 & H6 & H7).
  assert (T0 : title_of obj Module
               = py "MODULES : "
                 ++ (py "use 'inspect(" ++ display_name obj
                     ++ py ".xxx)' to get additional info for each inner")
                 ++ py " module") by reflexivity.
  assert (T1 : title_of obj Type_
               = py "TYPES : "
                 ++ (py "use 'inspect(" ++ display_name obj
                     ++ py ".xxx)' to get additional info for each inner")
                 ++ py " type") by reflexivity.
  rewrite <- T0 in H4. rewrite <- T1 in H5.
  change (fold (modules ls) width)
    with (body_of detail width Module (list_of Module ls)) in H4.
  change (fold (types ls) width)
    with (body_of detail width Type_ (list_of Type_ ls)) in H5.
  change (properties ls) with (list_of Data ls) in H6.
  change (methods ls) with (list_of Callable ls) in H7.
  change (modules ls) with (list_of Module ls) in H4.
  change (types ls) with (list_of Type_ ls) in H5.
  unfold filled, shown. cbn [filter].
  change (modules ls) with (list_of Module ls).
  change (types ls) with (list_of Type_ ls).
  change (properties ls) with (list_of Data ls).
  change (methods ls) with (list_of Callable ls).
  destruct H4 as [[E4 ->]|[E4 (b4 & B4 & ->)]];
    destruct H5 as [[E5 ->]|[E5 (b5 & B5 & ->)]];
    destruct H6 as [[E6 ->]|[E6 (b6 & B6 & ->)]];
    destruct H7 as [[E7 ->]|[E7 (b7 & B7 & ->)]];
    rewrite E4, E5, E6, E7; cbn [negb length];
    (split; [reflexivity|]);
    exists role; eexists; (split; [exact Hrole|]);
    (split; [repeat (first [apply Forall2_nil | apply Forall2_cons; [eassumption|]])
            |reflexivity]).
Qed.

Lemma report_sections_witness :
  let obj := an_object (Some (py "A thing."))
               [(py "s", a_string (py "<b>long text</b>") (py "'<b>long text</b>'"));
                (py "m", a_module); (py "n", an_int (py "123456789012345"))] in
  let ls := {| properties := [[py "n"; py "int"; py "1234...5"];
                              [py "s"; py "str"; py "'<b>long text</b>'"]];
               methods := []; types := []; modules := [[py "m"]] |} in
  let out := [ header (py "obj") (py "C") (py "A thing.");
               section (py "MODULES : use 'inspect(obj.xxx)' to get additional info for each inner module")
                       (py "m  ");
               section (py "PROPERTIES")
                       (py "n:int = 1234...5" ++ [NL]
                        ++ py "s:str = '<b>long text</b>'") ] in
  length out = S (filled ls) /\
  exists role bodies,
    getdetail (obj_doc obj) 2 (12 - 8) = Ok role /\
    Forall2 (fun k body => body_of 1 12 k (list_of k ls) = Ok body)
            (shown ls) bodies /\
    out = ([BULLET] ++ py " NAME = " ++ display_name obj
           ++ py " / TYPE = " ++ obj_type obj
           ++ [NL; BULLET] ++ py " ROLE = " ++ strip role)
          :: map (fun kb => [NL; BULLET; SP] ++ title_of obj (fst kb)
                            ++ [NL] ++ snd kb)
                 (combine (shown ls) bodies).
Proof.
  exact (report_sections
           (an_object (Some (py "A thing."))
              [(py "s", a_string (py "<b>long text</b>") (py "'<b>long text</b>'"));
               (py "m", a_module); (py "n", an_int (py "123456789012345"))])
           1 12
           {| properties := [[py "n"; py "int"; py "1234...5"];
                             [py "s"; py "str"; py "'<b>long text</b>'"]];
              methods := []; types := []; modules := [[py "m"]] |}
           [ header (py "obj") (py "C") (py "A thing.");
             section (py "MODULES : use 'inspect(obj.xxx)' to get additional info for each inner module")
                     (py "m  ");
             section (py "PROPERTIES")
                     (py "n:int = 1234...5" ++ [NL]
                      ++ py "s:str = '<b>long text</b>'") ]
           eq_refl eq_refl).
Defined.

(** ** load *)

Example load_run :
  load (py "  # data" ++ [NL] ++ py " a = 1 " ++ [NL; NL] ++ py "#b" ++ [NL]
        ++ py "c  " ++ [NL]) true true true (py "#")
  = LineList [py "a = 1"; py "c"] /\
  load (py " a" ++ [NL] ++ py "#b ") false true true (py "#")
  = Whole (py "a" ++ [NL] ++ py "#b") /\
  load (py " a" ++ [NL] ++ py "#b ") true false false (py "#")
  = LineList [py " a"; py "#b "].
Proof. repeat split. Qed.

Lemma str_eqb_eq (a b : str) : str_eqb a b = true <-> a = b.
Proof.
  revert b. induction a as [|x a IH]; intros [|y b]; cbn [str_eqb];
    try (split; [discriminate|discriminate]); [tauto|].
  rewrite andb_true_iff, N.eqb_eq, IH. split; [intros [-> ->]|intros [= -> ->]]; auto.
Qed.

Lemma trimmed_strip (s : str) : trimmed s -> strip s = s.
Proof. intros [Hl Hr]. unfold strip. rewrite Hl. exact Hr. Qed.

Lemma kept_line_char (c : N) (line : str) :
  kept_line [c] line = true <-> exists x r, line = x :: r /\ x <> c.
Proof.
  destruct line as [|x r]; cbn [kept_line].
  - split; [discriminate|intros (? & ? & ? & _); discriminate].
  - cbn [str_eqb]. rewrite andb_true_r, negb_true_iff, N.eqb_neq.
    split; [intros H; eauto|intros (? & ? & [= <- <-] & H); exact H].
Qed.

(** X12. With [split] and [clean], no line that [load] returns is empty or
    begins with the comment character; with [strip] besides, every line is
    free of white space at both ends. *)
Theorem load_clean_lines (text : str) (stripping : bool) (c : N) :
  exists lines,
    load text true stripping true [c] = LineList lines /\
    Forall (fun line => exists x r, line = x :: r /\ x <> c) lines /\
    (stripping = true -> Forall trimmed lines).
Proof.
  unfold load. cbn [negb]. eexists. split; [reflexivity|]. split.
  - apply Forall_forall. intros line Hin. apply filter_In in Hin as [_ Hk].
    apply kept_line_char. exact Hk.
  - intros ->. apply Forall_forall. intros line Hin.
    apply filter_In in Hin as [Hin _]. apply in_map_iff in Hin as (l & <- & _).
    apply strip_trimmed.
Qed.

(** X13. A comment marker that is not exactly one character long removes
    no comment: with [clean], only the empty lines go. *)
Theorem load_long_comment (text : str) (stripping : bool) (comment : str) :
  length comment <> 1%nat ->
  load text true stripping true comment
  = match load text true stripping false comment with
    | LineList lines => LineList (filter (fun l => negb (is_nil l)) lines)
    | Whole t => Whole t
    end.
Proof.
  intros Hc. unfold load. cbn [negb]. f_equal. apply filter_ext.
  intros [|x r]; [reflexivity|]. cbn [kept_line is_nil negb].
  destruct (str_eqb [x] comment) eqn:E; [|reflexivity].
  apply str_eqb_eq in E. subst comment. contradiction.
Qed.

Lemma load_long_comment_witness :
  load (py "# a" ++ [NL; NL] ++ py "b") true true true (py "# ")
  = LineList [py "# a"; py "b"].
Proof.
  refine (load_long_comment (py "# a" ++ [NL; NL] ++ py "b") true (py "# ") _).
  discriminate.
Defined.

(** X14. Without [strip] and [clean], the lines [load] returns, joined by
    line breaks, are the text of the file: nothing is lost. *)
Theorem load_lines_join (text : str) (comment : str) :
  exists lines,
    load text true false false comment = LineList lines /\
    join [NL] lines = text /\
    Forall (fun line => ~ In NL line) lines.
Proof.
  unfold load. cbn [negb]. eexists. split; [reflexivity|]. split.
  - apply join_split_char.
  - eapply Forall_impl; [|apply split_char_pieces].
    intros line. apply has_char_false_iff.
Qed.

Lemma strip_by_ends (s : str) :
  s <> [] -> is_space (hd NL s) = false -> is_space (last s NL) = false ->
  strip s = s.
Proof.
  intros Hn Hh Hl. unfold strip, lstrip, rstrip.
  destruct s as [|x r] eqn:E; [contradiction|]. rewrite <- E in *.
  assert (L : dropwhile is_space s = s)
    by (rewrite E in *; apply dropwhile_keep; exact Hh).
  rewrite L. rewrite (rev_last s NL Hn), (dropwhile_keep _ _ _ Hl).
  rewrite <- (rev_last s NL Hn). apply rev_involutive.
Qed.

Lemma hd_join (sep l : str) (ls : list str) (d : N) :
  l <> [] -> hd d (join sep (l :: ls)) = hd d l.
Proof. destruct l; [contradiction|]. destruct ls; reflexivity. Qed.

Lemma last_app_nonempty {A} (a b : list A) (d : A) :
  b <> [] -> last (a ++ b) d = last b d.
Proof.
  intros Hb. induction a as [|x a IH]; [reflexivity|].
  cbn [app]. destruct (a ++ b) eqn:E.
  - destruct a; [cbn in E; contradiction|discriminate].
  - rewrite <- IH. reflexivity.
Qed.

Lemma last_join (sep : str) (ls : list str) (d : N) :
  last ls [] <> [] -> last (join sep ls) d = last (last ls []) d.
Proof.
  induction ls as [|l ls IH]; [intros H; contradiction|].
  destruct ls as [|l' ls']; [reflexivity|]. intros H.
  change (last (l :: l' :: ls') []) with (last (l' :: ls') []) in *.
  rewrite join_cons by discriminate. specialize (IH H).
  assert (J : join sep (l' :: ls') <> []).
  { intros E. rewrite E in IH. cbn in IH.
    destruct (last (l' :: ls') []) as [|y t] eqn:EL; [contradiction|].
    clear - E EL. revert l' E EL. induction ls' as [|m ls' IHl]; intros l' E EL.
    - cbn in *. congruence.
    - rewrite join_cons in E by discriminate.
      apply app_eq_nil in E as [_ E]. apply app_eq_nil in E as [_ E].
      exact (IHl m E EL). }
  rewrite last_app_nonempty by (intros E; apply app_eq_nil in E as [_ E]; auto).
  rewrite last_app_nonempty by assumption. exact IH.
Qed.

Lemma clean_line_ends (c : N) (line : str) :
  clean_line c line ->
  line <> [] /\ is_space (hd NL line) = false /\ is_space (last line NL) = false.
Proof.
  intros (T & _ & x & r & -> & _). split; [discriminate|].
  apply trimmed_ends; [exact T|discriminate].
Qed.

Lemma strip_join_clean (c : N) (lines : list str) :
  Forall (clean_line c) lines -> strip (join [NL] lines) = join [NL] lines.
Proof.
  intros H. destruct lines as [|l ls]; [reflexivity|].
  assert (Hl : clean_line c (last (l :: ls) [])).
  { rewrite Forall_forall in H. apply H.
    destruct (exists_last (l := l :: ls) ltac:(discriminate)) as (a & z & E).
    rewrite E, last_last. apply in_or_app. right. left. reflexivity. }
  inversion H as [|? ? H1 _]; subst.
  apply clean_line_ends in H1 as (N1 & Hh & _).
  apply clean_line_ends in Hl as (N2 & _ & Ht).
  apply strip_by_ends.
  - destruct l; [contradiction|]. destruct ls; discriminate.
  - rewrite hd_join by assumption. exact Hh.
  - rewrite last_join by assumption. exact Ht.
Qed.

(** Lines that are clean are what [load] makes of their text. *)
Lemma load_normal_form (c : N) (lines : list str) :
  Forall (clean_line c) lines ->
  load (join [NL] lines) true true true [c] = LineList lines.
Proof.
  intros H. destruct lines as [|l0 ls0] eqn:E; [reflexivity|]. rewrite <- E in *.
  unfold load. cbn [negb]. rewrite (strip_join_clean c) by assumption.
  rewrite split_join_char.
  - f_equal. assert (M : map strip lines = lines).
    { clear E. induction H as [|l ls (T & _) _ IH]; [reflexivity|].
      cbn [map]. rewrite (trimmed_strip l T), IH. reflexivity. }
    rewrite M. clear E M. induction H as [|l ls (_ & _ & K) _ IH]; [reflexivity|].
    cbn [filter]. apply kept_line_char in K. rewrite K, IH. reflexivity.
  - rewrite E. discriminate.
  - eapply Forall_impl; [|exact H]. intros l (_ & Hn & _).
    apply has_char_false_iff. exact Hn.
Qed.

Lemma load_gives_clean_lines (text : str) (c : N) (lines : list str) :
  load text true true true [c] = LineList lines -> Forall (clean_line c) lines.
Proof.
  unfold load. cbn [negb]. intros [= <-]. apply Forall_forall.
  intros line Hin. apply filter_In in Hin as [Hin Hk].
  apply in_map_iff in Hin as (l & <- & Hl). repeat split.
  - apply strip_trimmed.
  - apply strip_trimmed.
  - intros Hnl. apply strip_incl in Hnl.
    pose proof (split_char_pieces NL (strip text)) as P.
    rewrite Forall_forall in P. specialize (P l Hl).
    apply has_char_false_iff in P. exact (P Hnl).
  - apply kept_line_char. exact Hk.
Qed.

(** X15. Loading is idempotent: the lines [load] returns with its default
    flags, joined by line breaks and loaded again, are returned as they
    are. *)
Theorem load_idempotent (text : str) (c : N) (lines : list str) :
  load text true true true [c] = LineList lines ->
  load (join [NL] lines) true true true [c] = LineList lines.
Proof.
  intros H. apply load_normal_form. exact (load_gives_clean_lines _ _ _ H).
Qed.

Lemma load_idempotent_witness :
  load (join [NL] [py "a = 1"; py "c"]) true true true (py "#")
  = LineList [py "a = 1"; py "c"].
Proof.
  exact (load_idempotent
           (py "  # data" ++ [NL] ++ py " a = 1 " ++ [NL; NL] ++ py "#b" ++ [NL]
            ++ py "c  " ++ [NL])
           35%N [py "a = 1"; py "c"] eq_refl).
Defined.

(** ** save *)

Example save_run :
  save (Some (py "old")) (Seq [py "a = 1"; py "c"]) (Str (py "data" ++ [NL] ++ py "v1"))
       false (py "# ")
  = (Some (py "# data" ++ [NL] ++ py "# v1" ++ [NL] ++ py "a = 1" ++ [NL]
           ++ py "c" ++ [NL]), None) /\
  save (Some (py "old" ++ [NL])) (Str (py "more")) (Str []) true (py "# ")
  = (Some (py "old" ++ [NL] ++ py "more" ++ [NL]), None).
Proof. split; reflexivity. Qed.

Lemma join_nil_inv (sep : str) (items : list str) :
  sep <> [] -> items <> [] -> join sep items = [] -> items = [[]].
Proof.
  intros Hs Hi. destruct items as [|a [|b r]]; [contradiction| |].
  - cbn. intros ->. reflexivity.
  - rewrite join_cons by discriminate. intros E.
    apply app_eq_nil in E as [_ E]. apply app_eq_nil in E as [E _].
    contradiction.
Qed.

Lemma last_item_raise {A} (l : list A) (e : exn) :
  last_item l = Raise e <-> l = [] /\ e = IndexError.
Proof.
  unfold last_item. destruct l as [|x l];
    [cbn; split; [intros [= <-]; auto|intros [_ ->]; reflexivity]|].
  destruct (rev (x :: l)) eqn:E.
  - apply (f_equal (@rev A)) in E. rewrite rev_involutive in E. discriminate.
  - split; [discriminate|intros [? _]; discriminate].
Qed.

Lemma save_body_raise (body : content) (e : exn) :
  save_body body = Raise e <-> body = Seq [[]] /\ e = IndexError.
Proof.
  unfold save_body. destruct body as [s|items]; cbn [truthy as_text].
  - destruct s as [|x s]; cbn [is_nil negb]; [split; [discriminate|intros [? _]; discriminate]|].
    destruct (last_item (x :: s)) eqn:L; cbn [bind].
    + split; [discriminate|intros [? _]; discriminate].
    + apply last_item_raise in L as [? _]. discriminate.
  - destruct items as [|a r]; cbn [is_nil negb];
      [split; [discriminate|intros [? _]; discriminate]|].
    destruct (last_item (join [NL] (a :: r))) eqn:L; cbn [bind].
    + split; [discriminate|]. intros [[= -> ->] _]. discriminate.
    + apply last_item_raise in L as [L ->].
      apply join_nil_inv in L; [|discriminate|discriminate].
      split; [intros [= <-]; rewrite L; auto|intros [_ ->]; reflexivity].
Qed.

Lemma save_body_ok (body b : content) :
  save_body body = Ok b ->
  (b = Seq [] /\ body = Seq []) \/ (b = Str [] /\ body = Str []) \/
  (exists text, b = Str text /\ text <> [] /\ last text NL = NL /\
                truthy body = true /\
                (text = as_text body \/
                 (text = as_text body ++ [NL] /\ last (as_text body) NL <> NL))).
Proof.
  unfold save_body. destruct (truthy body) eqn:T.
  - destruct (last_item (as_text body)) as [l|] eqn:L; [|discriminate].
    cbn [bind]. intros [= <-]. right. right.
    unfold last_item in L.
    destruct (rev (as_text body)) as [|y t] eqn:E; [discriminate|].
    injection L as ->. apply (f_equal (@rev N)) in E.
    rewrite rev_involutive in E. cbn [rev] in E.
    destruct (N.eqb_spec l NL) as [->|Hl]; cbn [negb]; eexists;
      (split; [reflexivity|]).
    + rewrite E. rewrite last_last.
      repeat split; auto. destruct (rev t); discriminate.
    + rewrite last_last. repeat split; auto; [destruct (as_text body); discriminate|].
      right. split; [reflexivity|]. rewrite E, last_last. exact Hl.
  - intros [= <-]. destruct body as [[|x s]|[|a r]]; try discriminate; auto.
Qed.

(** X16. The failures of [save].  [IndexError] is raised exactly for a body
    that is a sequence of one empty string, before the file is opened: the
    file is untouched.  [TypeError] is raised exactly when, the body being
    otherwise fine, the head or the body is an empty list or tuple; the file
    is then already open, and in write mode what it held is lost. *)
Theorem save_failures (old : option str) (body head : content) (append : bool)
        (comment : str) (after : option str) :
  (save old body head append comment = (after, Some BodyIndexError) <->
   body = Seq [[]] /\ after = old) /\
  (save old body head append comment = (after, Some WriteTypeError) <->
   body <> Seq [[]] /\ (head = Seq [] \/ body = Seq []) /\
   after = Some (opened old append)).
Proof.
  unfold save. destruct (save_body body) as [b|e] eqn:B.
  2: { apply save_body_raise in B as [-> ->]. split; split.
       - intros [= <-]. auto.
       - intros [_ ->]. reflexivity.
       - discriminate.
       - intros [H _]. contradiction. }
  assert (Hb : body <> Seq [[]]) by (intros ->; discriminate).
  assert (HD : (head = Seq [] \/ body = Seq []) <->
               match save_head head comment, b with
               | Str _, Str _ => False
               | _, _ => True
               end).
  { apply save_body_ok in B. unfold save_head.
    destruct head as [[|x s]|[|a r]]; cbn [truthy is_nil negb];
      destruct B as [[-> ->]|[[-> ->]|(text & -> & _ & _ & T & _)]];
      split; intros H; try exact I; try (left; reflexivity);
      try (right; reflexivity); try contradiction;
      destruct H as [H|H]; try discriminate; subst body; discriminate. }
  destruct (save_head head comment) as [h|items]; destruct b as [t|its].
  - destruct (encodable (h ++ t)); split; split; try discriminate;
      try (intros [? _]; contradiction);
      intros (_ & D & _); apply HD in D; contradiction.
  - split; split.
    + discriminate.
    + intros [? _]. contradiction.
    + intros [= <-]. repeat split; auto. apply HD. exact I.
    + intros (_ & _ & ->). reflexivity.
  - split; split.
    + discriminate.
    + intros [? _]. contradiction.
    + intros [= <-]. repeat split; auto. apply HD. exact I.
    + intros (_ & _ & ->). reflexivity.
  - split; split.
    + discriminate.
    + intros [? _]. contradiction.
    + intros [= <-]. repeat split; auto. apply HD. exact I.
    + intros (_ & _ & ->). reflexivity.
Qed.

(** The comment prefix in front of every line. *)
Lemma comment_lines (comment : str) (ls : list str) :
  ls <> [] ->
  comment ++ join (NL :: comment) ls = join [NL] (map (app comment) ls).
Proof.
  induction ls as [|l ls IH]; [contradiction|]. intros _.
  destruct ls as [|l' ls']; [reflexivity|].
  rewrite join_cons by discriminate.
  change (map (app comment) (l :: l' :: ls'))
    with ((comment ++ l) :: map (app comment) (l' :: ls')).
  rewrite (join_cons [NL]) by discriminate.
  rewrite <- IH by discriminate.
  cbn [app]. rewrite <- !app_assoc. reflexivity.
Qed.

(** X17. What [save] appends to the opened file when it returns: the head,
    each of its lines behind the comment prefix, then the body; and this text
    is empty (head and body both empty strings) or ends with a line break. *)
Theorem save_written (old : option str) (body head : content) (append : bool)
        (comment : str) (after : option str) :
  save old body head append comment = (after, None) ->
  exists h b,
    after = Some (opened old append ++ h ++ b) /\
    h = (if truthy head
         then join [NL] (map (app comment) (split [NL] (as_text head))) ++ [NL]
         else []) /\
    (b = as_text body \/ b = as_text body ++ [NL]) /\
    (h ++ b = [] \/ last (h ++ b) NL = NL) /\
    (h ++ b = [] <-> head = Str [] /\ body = Str []).
Proof.
  unfold save. destruct (save_body body) as [b|e] eqn:B; [|discriminate].
  apply save_body_ok in B.
  assert (Hh : forall h, save_head head comment = Str h ->
               h = (if truthy head
                    then join [NL] (map (app comment) (split [NL] (as_text head)))
                         ++ [NL]
                    else []) /\ (h = [] <-> head = Str [])).
  { unfold save_head. intros h. destruct (truthy head) eqn:T.
    - intros [= <-]. rewrite replace_join. split.
      + rewrite app_assoc, comment_lines by apply split_not_nil. reflexivity.
      + split; [|intros ->; discriminate T]. intros E.
        apply app_eq_nil in E as [_ E]. apply app_eq_nil in E as [_ E].
        discriminate.
    - intros ->. destruct h; [|discriminate]. split; [reflexivity|tauto]. }
  destruct (save_head head comment) as [h|items] eqn:H;
    [|destruct b; discriminate].
  destruct (Hh h eq_refl) as [Eh Nh].
  destruct B as [[-> ->]|[[-> ->]|(text & -> & Nt & Lt & T & Et)]];
    [discriminate| |].
  - destruct (encodable (h ++ [])); [|discriminate]. intros [= <-].
    exists h, []. rewrite !app_nil_r.
    split; [reflexivity|]. split; [exact Eh|]. split; [left; reflexivity|].
    split.
    + destruct h as [|x h'] eqn:E; [left; reflexivity|]. right.
      rewrite <- E in *. destruct (truthy head); [|congruence].
      rewrite Eh. apply last_last.
    + rewrite Nh. split; [intros ->; auto|intros [-> _]; reflexivity].
  - destruct (encodable (h ++ text)); [|discriminate]. intros [= <-].
    exists h, text.
    split; [reflexivity|]. split; [exact Eh|].
    split; [destruct Et as [->|[-> _]]; auto|].
    split.
    + right. rewrite last_app_nonempty by assumption. exact Lt.
    + split.
      * intros E. apply app_eq_nil in E as [_ E]. contradiction.
      * intros [_ ->]. discriminate T.
Qed.

Lemma save_written_witness :
  exists h b,
    Some (py "# data" ++ [NL] ++ py "# v1" ++ [NL] ++ py "a = 1" ++ [NL]
          ++ py "c" ++ [NL])
    = Some (opened (Some (py "old")) false ++ h ++ b) /\
    h = (if truthy (Str (py "data" ++ [NL] ++ py "v1"))
         then join [NL] (map (app (py "# "))
                             (split [NL] (as_text (Str (py "data" ++ [NL] ++ py "v1")))))
              ++ [NL]
         else []) /\
    (b = as_text (Seq [py "a = 1"; py "c"])
     \/ b = as_text (Seq [py "a = 1"; py "c"]) ++ [NL]) /\
    (h ++ b = [] \/ last (h ++ b) NL = NL) /\
    (h ++ b = [] <-> Str (py "data" ++ [NL] ++ py "v1") = Str []
                     /\ Seq [py "a = 1"; py "c"] = Str []).
Proof.
  exact (save_written (Some (py "old")) (Seq [py "a = 1"; py "c"])
           (Str (py "data" ++ [NL] ++ py "v1")) false (py "# ") _ eq_refl).
Defined.

(** ** save, then load *)

Lemma contains_head (x : N) (sub s : str) :
  contains (x :: sub) s = true -> In x s.
Proof.
  induction s as [|y s IH]; [cbn; discriminate|]. rewrite contains_cons.
  intros H. apply orb_true_iff in H as [H|H].
  - cbn [starts_with] in H. apply andb_true_iff in H as [H _].
    apply N.eqb_eq in H. left. auto.
  - right. exact (IH H).
Qed.

Lemma read_file_no_CR (held : str) : ~ In CR held -> read_file held = held.
Proof.
  intros H. unfold read_file.
  assert (A : forall sub, contains (CR :: sub) held = false).
  { intros sub. destruct (contains (CR :: sub) held) eqn:E; [|reflexivity].
    apply contains_head in E. contradiction. }
  rewrite (replace_absent [CR; NL]) by apply A. apply replace_absent, A.
Qed.

Lemma dropwhile_snoc {A} (p : A -> bool) (l : list A) (x : A) :
  p x = false -> dropwhile p (l ++ [x]) = dropwhile p l ++ [x].
Proof.
  intros H. induction l as [|y l IH]; cbn [app dropwhile]; [rewrite H; reflexivity|].
  destruct (p y); [exact IH|reflexivity].
Qed.

Lemma strip_keeps_head (c : N) (t : str) :
  is_space c = false -> exists t', strip (c :: t) = c :: t'.
Proof.
  intros H. unfold strip, lstrip, rstrip. rewrite (dropwhile_keep _ _ _ H).
  cbn [rev]. rewrite (dropwhile_snoc _ _ _ H), rev_unit. eauto.
Qed.

Lemma strip_ends_NL (s : str) :
  s <> [] -> is_space (hd NL s) = false -> is_space (last s NL) = false ->
  strip (s ++ [NL]) = s.
Proof.
  intros Hn Hh Hl. unfold strip, lstrip, rstrip.
  assert (L : dropwhile is_space (s ++ [NL]) = s ++ [NL]).
  { destruct s as [|x r]; [contradiction|]. apply dropwhile_keep. exact Hh. }
  rewrite L, rev_unit.
  change (dropwhile is_space (NL :: rev s)) with (dropwhile is_space (rev s)).
  rewrite (rev_last s NL Hn), (dropwhile_keep _ _ _ Hl).
  rewrite <- (rev_last s NL Hn). apply rev_involutive.
Qed.

Lemma last_item_last {A} (l : list A) (d : A) :
  l <> [] -> last_item l = Ok (last l d).
Proof. intros H. unfold last_item. rewrite (rev_last l d H). reflexivity. Qed.

Lemma join_app (sep : str) (a b : list str) :
  a <> [] -> b <> [] -> join sep (a ++ b) = join sep a ++ sep ++ join sep b.
Proof.
  intros Ha Hb. induction a as [|x a IH]; [contradiction|].
  destruct a as [|y a'].
  - cbn [app]. rewrite join_cons by assumption. reflexivity.
  - cbn [app] in *. rewrite join_cons by discriminate.
    rewrite IH by discriminate. rewrite (join_cons sep x) by discriminate.
    rewrite <- !app_assoc. reflexivity.
Qed.

Lemma last_snoc_list {A} (a b : list A) (d : A) :
  b <> [] -> last (a ++ b) d = last b d.
Proof. apply last_app_nonempty. Qed.

(** The text of comment lines followed by clean lines loads as the clean
    lines. *)
Lemma load_after_comments (c : N) (hs lines : list str) :
  is_space c = false ->
  Forall (fun l => ~ In NL l /\ exists t, l = c :: t) hs ->
  Forall (clean_line c) lines -> lines <> [] ->
  load (join [NL] (hs ++ lines) ++ [NL]) true true true [c] = LineList lines.
Proof.
  intros Hc Hhs Hl Hn.
  assert (Hall : hs ++ lines <> []) by (destruct hs; [assumption|discriminate]).
  assert (Hlast : clean_line c (last (hs ++ lines) [])).
  { rewrite last_app_nonempty by assumption. rewrite Forall_forall in Hl. apply Hl.
    destruct (exists_last Hn) as (a & z & ->). rewrite last_last.
    apply in_or_app. right. left. reflexivity. }
  apply clean_line_ends in Hlast as (N2 & _ & Ht).
  assert (Hfirst : exists f r, hs ++ lines = f :: r /\ f <> []
                               /\ is_space (hd NL f) = false).
  { destruct hs as [|h hs'].
    - destruct lines as [|l r]; [contradiction|]. inversion Hl as [|? ? H1 _]; subst.
      apply clean_line_ends in H1 as (N1 & Hh & _). exists l, r. auto.
    - inversion Hhs as [|? ? (_ & t & ->) _]; subst.
      exists (c :: t), (hs' ++ lines). repeat split; [discriminate|exact Hc]. }
  destruct Hfirst as (f & r & Ef & Nf & Hf).
  unfold load. cbn [negb]. rewrite strip_ends_NL.
  - rewrite split_join_char; [|assumption|].
    + rewrite map_app, filter_app. f_equal.
      assert (F1 : filter (kept_line [c]) (map strip hs) = []).
      { clear - Hc Hhs. induction Hhs as [|h hs (_ & t & ->) _ IH]; [reflexivity|].
        cbn [map filter]. destruct (strip_keeps_head c t Hc) as [t' ->].
        cbn [kept_line str_eqb]. rewrite N.eqb_refl. exact IH. }
      assert (F2 : filter (kept_line [c]) (map strip lines) = lines).
      { clear - Hl. induction Hl as [|l ls (T & _ & K) _ IH]; [reflexivity|].
        cbn [map filter]. rewrite (trimmed_strip l T).
        apply kept_line_char in K. rewrite K, IH. reflexivity. }
      rewrite F1, F2. reflexivity.
    + apply Forall_app. split.
      * eapply Forall_impl; [|exact Hhs]. intros l [H _].
        apply has_char_false_iff. exact H.
      * eapply Forall_impl; [|exact Hl]. intros l (_ & H & _).
        apply has_char_false_iff. exact H.
  - rewrite Ef. destruct f; [contradiction|]. destruct r; discriminate.
  - rewrite Ef, hd_join by assumption. exact Hf.
  - rewrite last_join by assumption. exact Ht.
Qed.

(** X18. What [save] writes, [load] reads back.  Body lines that are not
    empty, have no white space at their ends, no line break inside and do
    not begin with the comment character, written by [save] in write mode
    behind any head, with a comment prefix that begins with that character,
    are the lines [load] returns from the file, the head left out; the text
    written is assumed free of '\r', which reading would turn into '\n'. *)
Theorem save_then_load (old : option str) (lines : list str) (head : content)
        (c : N) (prefix : str) (held : str) :
  lines <> [] ->
  Forall (clean_line c) lines ->
  is_space c = false ->
  ~ In NL (c :: prefix) ->
  save old (Seq lines) head false (c :: prefix) = (Some held, None) ->
  ~ In CR held ->
  load_file held true true true [c] = LineList lines.
Proof.
  intros Hn Hl Hc Hp Hs Hcr. unfold load_file.
  rewrite read_file_no_CR by assumption.
  set (J := join [NL] lines).
  assert (HJ : J <> [] /\ is_space (last J NL) = false).
  { assert (Hlast : clean_line c (last lines [])).
    { rewrite Forall_forall in Hl. apply Hl.
      destruct (exists_last Hn) as (a & z & ->). rewrite last_last.
      apply in_or_app. right. left. reflexivity. }
    apply clean_line_ends in Hlast as (N2 & _ & Ht). unfold J. split.
    - destruct lines as [|l r]; [contradiction|]. inversion Hl as [|? ? H1 _]; subst.
      apply clean_line_ends in H1 as (N1 & _). destruct l; [contradiction|].
      destruct r; discriminate.
    - rewrite last_join by assumption. exact Ht. }
  destruct HJ as [NJ LJ].
  assert (B : save_body (Seq lines) = Ok (Str (J ++ [NL]))).
  { unfold save_body. cbn [truthy as_text]. fold J.
    destruct lines; [contradiction|]. cbn [is_nil negb].
    rewrite (last_item_last J NL NJ). cbn [bind].
    destruct (N.eqb_spec (last J NL) NL) as [E|E]; [|reflexivity].
    rewrite E in LJ. discriminate. }
  unfold save in Hs. rewrite B in Hs. cbn [opened app] in Hs.
  unfold save_head in Hs. destruct (truthy head) eqn:T.
  - destruct (encodable _); [|discriminate]. injection Hs as <-.
    rewrite replace_join.
    change (c :: (prefix ++ join (NL :: c :: prefix) (split [NL] (as_text head))
                  ++ [NL]) ++ J ++ [NL])
      with (((c :: prefix) ++ join (NL :: c :: prefix) (split [NL] (as_text head))
             ++ [NL]) ++ J ++ [NL]).
    rewrite (app_assoc (c :: prefix)), comment_lines by apply split_not_nil.
    set (hs := map (app (c :: prefix)) (split [NL] (as_text head))).
    assert (Nh : hs <> []).
    { unfold hs. pose proof (split_not_nil [NL] (as_text head)).
      destruct (split [NL] (as_text head)); [contradiction|discriminate]. }
    replace ((join [NL] hs ++ [NL]) ++ J ++ [NL])
      with (join [NL] (hs ++ lines) ++ [NL])
      by (rewrite join_app by assumption; unfold J; rewrite <- !app_assoc;
          reflexivity).
    apply load_after_comments; try assumption.
    unfold hs. apply Forall_forall. intros l Hin.
    apply in_map_iff in Hin as (piece & <- & Hpiece).
    split; [|eexists; reflexivity].
    intros Hin. apply in_app_or in Hin as [Hin|Hin]; [exact (Hp Hin)|].
    pose proof (split_char_pieces NL (as_text head)) as P.
    rewrite Forall_forall in P. specialize (P piece Hpiece).
    apply has_char_false_iff in P. exact (P Hin).
  - destruct head as [h|items]; [|discriminate].
    destruct (encodable _); [|discriminate]. injection Hs as <-.
    destruct h; [|discriminate]. cbn [app].
    apply (load_after_comments c [] lines); auto.
Qed.

Lemma save_then_load_witness :
  load_file (py "# data" ++ [NL] ++ py "# v1" ++ [NL] ++ py "a = 1" ++ [NL]
             ++ py "c" ++ [NL]) true true true (py "#")
  = LineList [py "a = 1"; py "c"].
Proof.
  refine (save_then_load (Some (py "old")) [py "a = 1"; py "c"]
            (Str (py "data" ++ [NL] ++ py "v1")) 35%N (py " ") _ _ _ _ _ eq_refl _).
  - discriminate.
  - repeat constructor; try (intros H; cbv in H; intuition discriminate);
      eexists _, _; (split; [reflexivity|discriminate]).
  - reflexivity.
  - intros H. cbv in H. intuition discriminate.
  - intros H. cbv in H. intuition discriminate.
Defined.

(** ** show *)

Example show_run :
  show lookup_eval (fun _ v => Some v)
       (fun _ v => py "[" ++ join (py ", ") v ++ py "]")
       [(py "xs", [py "1"; py "2"]); (py "_y", [py "3"])]
       (py "xs; *xs# ;; _y ; xs") 0%nat
  = (3%nat,
     py "xs " ++ [ARROW] ++ py " [1, 2]" ++ [NL]
     ++ py "*xs " ++ [ARROW; NL] ++ py "1 2" ++ [NL]
     ++ [NL],
     Some (EvalRaised tt)).
Proof. reflexivity. Qed.

Lemma dropwhile_all {A} (p : A -> bool) (l r : list A) :
  forallb p l = true -> dropwhile p (l ++ r) = dropwhile p r.
Proof.
  induction l as [|x l IH]; [reflexivity|]. cbn [forallb app dropwhile].
  intros H. apply andb_true_iff in H as [Hx Hl]. rewrite Hx. exact (IH Hl).
Qed.

Lemma forallb_rev {A} (p : A -> bool) (l : list A) :
  forallb p l = true -> forallb p (rev l) = true.
Proof.
  rewrite !forallb_forall. intros H x Hx. apply H, in_rev. exact Hx.
Qed.

(** White space around a text that has none at its ends is what [strip]
    takes away. *)
Lemma strip_padded (ws1 s ws2 : str) :
  forallb is_space ws1 = true -> forallb is_space ws2 = true ->
  (s <> [] -> is_space (hd SP s) = false /\ is_space (last s SP) = false) ->
  strip (ws1 ++ s ++ ws2) = s.
Proof.
  intros H1 H2 Hs. unfold strip, lstrip, rstrip.
  rewrite (dropwhile_all _ _ _ H1).
  destruct s as [|x r] eqn:E.
  - cbn [app]. rewrite <- (app_nil_r ws2) at 1.
    rewrite (dropwhile_all _ _ _ H2). reflexivity.
  - rewrite <- E in *. assert (Hn : s <> []) by (rewrite E; discriminate).
    destruct (Hs Hn) as [Hh Hl].
    assert (L : dropwhile is_space (s ++ ws2) = s ++ ws2)
      by (rewrite E in *; apply dropwhile_keep; exact Hh).
    rewrite L, rev_app_distr, (dropwhile_all _ _ _ (forallb_rev _ _ H2)).
    rewrite (rev_last s SP Hn), (dropwhile_keep _ _ _ Hl).
    rewrite <- (rev_last s SP Hn). apply rev_involutive.
Qed.

Lemma clamp_index_len (n : Z) : 0 <= n -> clamp_index n n = n.
Proof.
  intros H. unfold clamp_index.
  destruct (n <? 0) eqn:E; [apply Z.ltb_lt in E; lia|lia].
Qed.

Lemma slice_tail (x : N) (r : str) : slice (x :: r) 1 (len (x :: r)) = r.
Proof.
  unfold slice, len. rewrite clamp_index_len by lia.
  assert (E : clamp_index (Z.of_nat (length (x :: r))) 1 = 1).
  { unfold clamp_index. destruct (1 <? 0) eqn:E; [discriminate|].
    cbn [length]. lia. }
  rewrite E. change (Z.to_nat 1) with 1%nat. cbn [skipn].
  apply firstn_all2. cbn [length]. lia.
Qed.

Lemma slice_last (a : str) (z : N) :
  slice (a ++ [z]) (-1) (len (a ++ [z])) = [z].
Proof.
  unfold slice, len. rewrite clamp_index_len by lia.
  assert (E : clamp_index (Z.of_nat (length (a ++ [z]))) (-1)
              = Z.of_nat (length a)).
  { unfold clamp_index. destruct (-1 <? 0) eqn:E; [|discriminate].
    rewrite length_app. cbn [length]. lia. }
  rewrite E, Nat2Z.id, skipn_app, skipn_all, Nat.sub_diag.
  cbn [app skipn]. apply firstn_all2. rewrite length_app. cbn [length]. lia.
Qed.

Lemma slice_to_init (a : str) (z : N) : slice_to (a ++ [z]) (-1) = a.
Proof.
  rewrite slice_to_neg by lia. rewrite length_app. cbn [length].
  replace (length a + 1 - Z.to_nat (- -1))%nat with (length a + 0)%nat by lia.
  rewrite firstn_app_2. cbn [firstn]. apply app_nil_r.
Qed.

Lemma slice_to_one (x : N) (r : str) : slice_to (x :: r) 1 = [x].
Proof. rewrite slice_to_nonneg by lia. reflexivity. Qed.

Lemma str_eqb_single (x y : N) : str_eqb [x] [y] = (x =? y)%N.
Proof. cbn. apply andb_true_r. Qed.

Lemma flagged_ends (star hash : bool) (e : str) :
  plain_at_ends star e hash ->
  flagged star e hash <> [] ->
  is_space (hd SP (flagged star e hash)) = false /\
  is_space (last (flagged star e hash) SP) = false.
Proof.
  intros [Ps Ph] Hne. unfold flagged in *. split.
  - destruct star; [reflexivity|]. cbn [app] in *.
    destruct e as [|x r].
    + destruct hash; [reflexivity|]. exfalso. apply Hne. reflexivity.
    + apply (Ps eq_refl). discriminate.
  - destruct hash.
    + rewrite app_assoc, last_last. reflexivity.
    + rewrite app_nil_r in *. destruct e as [|x r] eqn:E.
      * destruct star; [reflexivity|]. exfalso. apply Hne. reflexivity.
      * rewrite <- E in *. assert (Hn : e <> []) by (rewrite E; discriminate).
        rewrite last_app_nonempty by assumption. apply (Ph eq_refl Hn).
Qed.

(** X19. The flags of a clause are read back as they were written: an
    expression between an optional leading '*' and an optional trailing '#',
    with white space around, is parsed into these flags and that expression,
    the expression being free, where a flag is absent, of white space and of
    the flag's character at that end.  Between both flags the expression is
    taken as it is. *)
Theorem parse_clause_flags (star hash : bool) (ws1 e ws2 : str) :
  forallb is_space ws1 = true ->
  forallb is_space ws2 = true ->
  plain_at_ends star e hash ->
  parse_clause (ws1 ++ flagged star e hash ++ ws2)
  = (if star then [STAR] else [], e,
     if hash then [SP; ARROW; NL] else [SP; ARROW; SP]).
Proof.
  intros H1 H2 P. unfold parse_clause.
  rewrite (strip_padded _ _ _ H1 H2 (flagged_ends _ _ _ P)).
  destruct P as [Ps Ph]. unfold flagged.
  destruct star, hash; cbn [app].
  - rewrite slice_to_one, str_eqb_single, N.eqb_refl.
    rewrite slice_tail. change (STAR :: e ++ [HASH]) with ((STAR :: e) ++ [HASH]).
    rewrite slice_last, str_eqb_single, N.eqb_refl, slice_to_init. reflexivity.
  - rewrite app_nil_r, slice_to_one, str_eqb_single, N.eqb_refl, slice_tail.
    destruct e as [|x r] eqn:E; [reflexivity|]. rewrite <- E in *.
    assert (Hn : e <> []) by (rewrite E; discriminate).
    destruct (Ph eq_refl Hn) as [_ Hz].
    destruct (exists_last Hn) as (a & z & Ea). rewrite Ea in *.
    rewrite last_last in Hz.
    change (STAR :: a ++ [z]) with ((STAR :: a) ++ [z]).
    rewrite slice_last, str_eqb_single.
    replace (z =? HASH)%N with false by (symmetry; apply N.eqb_neq; exact Hz).
    reflexivity.
  - destruct e as [|x r]; [reflexivity|].
    destruct (Ps eq_refl ltac:(discriminate)) as [_ Hx]. cbn [hd] in Hx.
    cbn [app]. rewrite slice_to_one, str_eqb_single.
    replace (x =? STAR)%N with false by (symmetry; apply N.eqb_neq; exact Hx).
    change (x :: r ++ [HASH]) with ((x :: r) ++ [HASH]).
    rewrite slice_last, str_eqb_single, N.eqb_refl, slice_to_init.
    reflexivity.
  - rewrite app_nil_r. destruct e as [|x r]; [reflexivity|].
    destruct (Ps eq_refl ltac:(discriminate)) as [_ Hx]. cbn [hd] in Hx.
    destruct (Ph eq_refl ltac:(discriminate)) as [_ Hz].
    rewrite slice_to_one, str_eqb_single.
    replace (x =? STAR)%N with false by (symmetry; apply N.eqb_neq; exact Hx).
    destruct (exists_last (l := x :: r) ltac:(discriminate)) as (a & z & Ea).
    rewrite Ea in *. rewrite last_last in Hz. rewrite slice_last, str_eqb_single.
    replace (z =? HASH)%N with false by (symmetry; apply N.eqb_neq; exact Hz).
    reflexivity.
Qed.

Lemma parse_clause_flags_witness :
  parse_clause (py " " ++ flagged true (py " xs ") true ++ py "  ")
  = ([STAR], py " xs ", [SP; ARROW; NL]).
Proof.
  refine (parse_clause_flags true true (py " ") (py " xs ") (py "  ")
            eq_refl eq_refl _).
  split; discriminate.
Defined.

Lemma strip_blank (s : str) : forallb is_space s = true -> strip s = [].
Proof.
  intros H. unfold strip, lstrip. rewrite <- (app_nil_r s).
  rewrite (dropwhile_all _ _ _ H). reflexivity.
Qed.

Lemma show_clause_blank {W V E}
      (eval : W -> list (str * V) -> str -> (V + E) * W)
      (items : W -> V -> option (list str)) (text : W -> V -> str)
      (namespace : list (str * V)) (exp : str) (w : W) (out : str) :
  forallb is_space exp = true ->
  show_clause eval items text namespace exp w out = (w, out ++ [NL], None).
Proof.
  intros H. unfold show_clause, parse_clause. rewrite (strip_blank _ H).
  reflexivity.
Qed.

Lemma split_char_length (c : N) (s : str) :
  length (split [c] s) = S (count_occ N.eq_dec s c).
Proof.
  induction s as [|x s IH]; [reflexivity|]. rewrite split_char_cons.
  cbn [count_occ]. destruct (N.eq_dec x c) as [->|Hx].
  - rewrite N.eqb_refl. cbn [length]. rewrite IH. reflexivity.
  - replace (c =? x)%N with false by (symmetry; apply N.eqb_neq; congruence).
    destruct (split [c] s); cbn [length] in *; [discriminate|exact IH].
Qed.

Lemma split_char_incl (c : N) (s : str) :
  Forall (fun piece => forall x, In x piece -> In x s /\ x <> c) (split [c] s).
Proof.
  induction s as [|x s IH]; [repeat constructor; contradiction|].
  rewrite split_char_cons. destruct (N.eqb_spec c x) as [->|Hx].
  - constructor; [intros y []|].
    eapply Forall_impl; [|exact IH]. intros piece H y Hy.
    destruct (H y Hy). split; [right|]; assumption.
  - pose proof (split_not_nil [c] s) as Hn.
    destruct (split [c] s) as [|piece rest]; [contradiction|].
    inversion IH as [|? ? Hp Hr]; subst. constructor.
    + intros y [<-|Hy]; [split; [left; reflexivity|congruence]|].
      destruct (Hp y Hy). split; [right|]; assumption.
    + eapply Forall_impl; [|exact Hr]. intros q H y Hy.
      destruct (H y Hy). split; [right|]; assumption.
Qed.

Lemma show_clauses_blank {W V E}
      (eval : W -> list (str * V) -> str -> (V + E) * W)
      (items : W -> V -> option (list str)) (text : W -> V -> str)
      (namespace : list (str * V)) (clauses : list str) (w : W) :
  Forall (fun cl => forallb is_space cl = true) clauses ->
  forall out,
  show_clauses eval items text namespace clauses w out
  = (w, out ++ repeat NL (length clauses), None).
Proof.
  induction 1 as [|cl cls Hc _ IH]; intros out; cbn [show_clauses].
  - rewrite app_nil_r. reflexivity.
  - rewrite (show_clause_blank _ _ _ _ _ _ _ Hc), IH, <- app_assoc. reflexivity.
Qed.

(** X20. A string made of separators and white space only prints one empty
    line for each clause, one more than it has ';', and evaluates nothing:
    the output is the same whatever [eval] would answer, and the state of
    the program is left as it was. *)
Theorem show_blank {W V E}
        (eval : W -> list (str * V) -> str -> (V + E) * W)
        (items : W -> V -> option (list str)) (text : W -> V -> str)
        (globals namespace : list (str * V)) (string : str) (w : W) :
  public globals = Ok namespace ->
  forallb (fun c => is_space c || (c =? SEMI)%N) string = true ->
  show eval items text globals string w
  = (w, repeat NL (S (count_occ N.eq_dec string SEMI)), None).
Proof.
  intros Hp Hs. unfold show. rewrite Hp.
  rewrite show_clauses_blank, split_char_length; [reflexivity|].
  eapply Forall_impl; [|apply (split_char_incl SEMI string)].
  intros piece H. apply forallb_forall. intros x Hx. destruct (H x Hx) as [Hin Hne].
  rewrite forallb_forall in Hs. specialize (Hs x Hin).
  apply orb_true_iff in Hs as [Hs|Hs]; [exact Hs|].
  apply N.eqb_eq in Hs. contradiction.
Qed.

Lemma show_blank_witness :
  show lookup_eval (fun _ v => Some v) (fun _ v => join (py ", ") v)
       [(py "xs", [py "1"; py "2"])] (py " ; ;") 0%nat
  = (0%nat, repeat NL 3, None).
Proof.
  exact (show_blank lookup_eval (fun _ v => Some v) (fun _ v => join (py ", ") v)
           [(py "xs", [py "1"; py "2"])] _ (py " ; ;") 0%nat eq_refl eq_refl).
Defined.

Lemma public_filter {V} (globals namespace : list (str * V)) :
  public globals = Ok namespace ->
  namespace = filter public_name globals /\ ~ In [] (map fst globals).
Proof.
  revert namespace. induction globals as [|[k v] rest IH]; intros namespace.
  - intros [= <-]. auto.
  - cbn [public]. destruct k as [|c k]; [discriminate|]. cbn [first_item bind].
    destruct (public rest) as [ns|]; [|discriminate]. cbn [bind].
    intros [= <-]. destruct (IH ns eq_refl) as [-> Hn].
    cbn [filter map In fst]. unfold public_name at 2. cbn [fst reserved].
    split; [reflexivity|]. intros [H|H]; [discriminate|auto].
Qed.

Lemma public_raises {V} (globals : list (str * V)) :
  In [] (map fst globals) -> public globals = Raise IndexError.
Proof.
  induction globals as [|[k v] rest IH]; [contradiction|].
  cbn [map fst In public]. destruct k as [|c k]; [reflexivity|].
  intros [H|H]; [discriminate|]. cbn [first_item bind].
  rewrite (IH H). reflexivity.
Qed.

(** X21. The expressions of [show] see the caller's globals without those
    whose name begins with '_', and nothing else is changed: the call goes
    as it would with these globals alone.  A global whose name is the empty
    string stops the call with [IndexError] before anything is printed. *)
Theorem show_public_globals {W V E}
        (eval : W -> list (str * V) -> str -> (V + E) * W)
        (items : W -> V -> option (list str)) (text : W -> V -> str)
        (globals : list (str * V)) (string : str) (w : W) :
  (~ In [] (map fst globals) ->
   public globals = Ok (filter public_name globals) /\
   show eval items text globals string w
   = show eval items text (filter public_name globals) string w) /\
  (In [] (map fst globals) ->
   show eval items text globals string w = (w, [], Some KeyIndexError)).
Proof.
  split.
  - intros Hn.
    assert (P : forall g : list (str * V),
               ~ In [] (map fst g) -> public g = Ok (filter public_name g)).
    { induction g as [|[k v] rest IH]; [reflexivity|]. cbn [map fst In].
      intros H. cbn [public]. destruct k as [|c k]; [tauto|].
      cbn [first_item bind]. rewrite IH by tauto. reflexivity. }
    split; [exact (P _ Hn)|]. unfold show. rewrite (P _ Hn).
    assert (F : ~ In [] (map fst (filter public_name globals))).
    { intros H. apply in_map_iff in H as (kv & E1 & H).
      apply filter_In in H as [H _]. apply Hn, in_map_iff. eauto. }
    rewrite (P _ F).
    assert (I : forall g : list (str * V),
               filter public_name (filter public_name g) = filter public_name g).
    { induction g as [|kv g IH]; [reflexivity|]. cbn [filter].
      destruct (public_name kv) eqn:K; [|exact IH].
      cbn [filter]. rewrite K, IH. reflexivity. }
    rewrite I. reflexivity.
  - intros H. unfold show. rewrite (public_raises _ H). reflexivity.
Qed.

(** ** Levels outside 0 to 3 *)

Lemma getdetail_other_level (doc : option str) (detail width : Z) :
  detail <> 2 -> detail <> 3 ->
  getdetail doc detail width = getdetail doc 1 width.
Proof.
  intros H2 H3. rewrite !getdetail_low by lia.
  replace (detail =? 2) with false by (symmetry; apply Z.eqb_neq; lia).
  reflexivity.
Qed.

Lemma for_members_other_level (detail width : Z) (l : list (str * member)) :
  detail <> 2 -> detail <> 3 ->
  forall acc, for_members detail width acc l = for_members 1 width acc l.
Proof.
  intros H2 H3. induction l as [|[name m] l IH]; intros acc; [reflexivity|].
  cbn [for_members]. unfold visit.
  rewrite (getdetail_other_level _ detail _ H2 H3).
  destruct (first_item name) as [c|]; [|reflexivity]. cbn [bind].
  destruct (c =? USCORE)%N; [apply IH|].
  destruct (has_package m); [apply IH|]. destruct (has_base m); [apply IH|].
  destruct (has_call m).
  - destruct (getdetail _ _ _); [|reflexivity]. cbn [bind]. apply IH.
  - destruct (property_value _ _ _); [|reflexivity]. cbn [bind]. apply IH.
Qed.

(** X22. A level outside 0 to 3 is not refused: every level other than 0, 2
    and 3, negative ones included, gives the report of level 1. *)
Theorem report_other_level (obj : target) (detail width : Z) :
  detail <> 0 -> detail <> 2 -> detail <> 3 ->
  report obj detail width = report obj 1 width.
Proof.
  intros H0 H2 H3. unfold report, inspect, classify.
  rewrite (for_members_other_level detail width _ H2 H3).
  replace (detail =? 0) with false by (symmetry; apply Z.eqb_neq; lia).
  reflexivity.
Qed.

Lemma report_other_level_witness :
  report (an_object (Some (py "A thing."))
            [(py "foo", a_function (Some (py "Do foo." ++ [NL] ++ py "More")))])
         (-7) 40
  = report (an_object (Some (py "A thing."))
              [(py "foo", a_function (Some (py "Do foo." ++ [NL] ++ py "More")))])
           1 40.
Proof.
  refine (report_other_level _ (-7) 40 _ _ _); discriminate.
Defined.
